(** * run_py_openmdao_ccblade.py: a propeller design-optimisation script

    The script wires four OpenMDAO subsystems into a [Problem], declares the
    design variables, the objective and the constraint, runs the optimiser
    and saves two plots.  Python floats are IEEE binary64 numbers and are
    embedded as Rocq's primitive floats; NumPy arrays are a shape together
    with the row-major list of their entries. *)

From Stdlib Require Import String Bool Arith ZArith Lia List.
From Stdlib Require Import PrimFloat.
From Stdlib Require Uint63.
Import ListNotations.

#[local] Set Warnings "-inexact-float".
#[local] Set Implicit Arguments.

(** ** The option monad, for NumPy operations that can raise *)

Definition obind {A B : Type} (m : option A) (f : A -> option B) : option B :=
  match m with
  | Some a => f a
  | None => None
  end.

Declare Scope opt_scope.
Delimit Scope opt_scope with opt.
Notation "x <-? m ;; k" := (obind m (fun x => k))
  (at level 61, m at next level, right associativity) : opt_scope.

(** ** NumPy arrays *)

Module NumPy.

Record ndarray (A : Type) : Type := mk_ndarray
  { shape : list nat;
    data : list A }.

Arguments mk_ndarray {A} _ _.
Arguments shape {A} _.
Arguments data {A} _.

(** Number of entries announced by a shape. *)
Definition prod (s : list nat) : nat := fold_right Nat.mul 1 s.

Definition size {A} (a : ndarray A) : nat := prod (shape a).

(** The invariant NumPy maintains: as many entries as the shape says. *)
Definition wf {A} (a : ndarray A) : Prop := length (data a) = size a.

Definition ndim {A} (a : ndarray A) : nat := length (shape a).

(** [a.flatten()]: a one-dimensional copy in row-major order. *)
Definition flatten {A} (a : ndarray A) : ndarray A :=
  mk_ndarray [size a] (data a).

(** [a[:, np.newaxis]]: a new axis of length one in second position; an array
    without a first axis has too many indices. *)
Definition newaxis1 {A} (a : ndarray A) : option (ndarray A) :=
  match shape a with
  | [] => None
  | n :: rest => Some (mk_ndarray (n :: 1 :: rest) (data a))
  end.

(** A shape split into its leading axes and its last axis. *)
Definition split_last (s : list nat) : option (list nat * nat) :=
  match rev s with
  | [] => None
  | m :: r => Some (rev r, m)
  end.

(** Rows of [la] entries of [xs] alternating with rows of [lb] entries of
    [ys]. *)
Fixpoint weave {A} (rows la lb : nat) (xs ys : list A) : list A :=
  match rows with
  | O => []
  | S r =>
      firstn la xs ++ firstn lb ys ++ weave r la lb (skipn la xs) (skipn lb ys)
  end.

(** Equality of two shapes. *)
Fixpoint shape_eqb (s t : list nat) : bool :=
  match s, t with
  | [], [] => true
  | n :: s', m :: t' => (n =? m) && shape_eqb s' t'
  | _, _ => false
  end.

(** [np.concatenate([a, b], axis=-1)]: zero-dimensional arrays cannot be
    concatenated and all axes but the last must agree. *)
Definition concatenate_last {A} (a b : ndarray A) : option (ndarray A) :=
  match split_last (shape a), split_last (shape b) with
  | Some (ia, la), Some (ib, lb) =>
      if shape_eqb ia ib
      then Some (mk_ndarray (ia ++ [la + lb])
                   (weave (prod ia) la lb (data a) (data b)))
      else None
  | _, _ => None
  end.

(** Shapes an array can take in place whatever its strides are: its own
    shape, and for a two-axis array every split of the first axis that keeps
    the last one.  No axes are merged then, so NumPy needs no copy. *)
Definition always_in_place (old new : list nat) : bool :=
  shape_eqb old new ||
  match old, split_last new with
  | [n; k], Some (init, k') => (k =? k') && (prod init =? n)
  | _, _ => false
  end.

(** [y.shape = s], an assignment in place.  The entries stay.  It raises
    [ValueError] when the total size would change, and [AttributeError] when
    NumPy could give [y] the new shape only by copying it; outside the shapes
    of [always_in_place] that depends on the strides of [y], and
    [strides_fit] says whether they allow it. *)
Definition set_shape {A} (strides_fit : bool) (y : ndarray A) (s : list nat)
  : option (ndarray A) :=
  if prod s =? size y then
    if always_in_place (shape y) s || strides_fit
    then Some (mk_ndarray s (data y))
    else None
  else None.

(** Entry [k] of each of [rows] consecutive rows of [m] entries. *)
Fixpoint pick {A} (rows m k : nat) (xs : list A) : list A :=
  match rows with
  | O => []
  | S r => firstn 1 (skipn k xs) ++ pick r m k (skipn m xs)
  end.

(** [y[..., k]]: index [k] along the last axis. *)
Definition index_last {A} (k : nat) (y : ndarray A) : option (ndarray A) :=
  match split_last (shape y) with
  | Some (init, m) =>
      if k <? m then Some (mk_ndarray init (pick (prod init) m k (data y)))
      else None
  | None => None
  end.

(** [a[node, :]]: the sub-array at index [node] of the first axis of an array
    with at least two axes. *)
Definition row {A} (node : nat) (a : ndarray A) : option (ndarray A) :=
  match shape a with
  | n :: m :: rest =>
      if node <? n
      then Some (mk_ndarray (m :: rest)
                   (firstn (prod (m :: rest))
                      (skipn (node * prod (m :: rest)) (data a))))
      else None
  | _ => None
  end.

(** Entry-wise image of an array. *)
Definition amap {A B} (f : A -> B) (a : ndarray A) : ndarray B :=
  mk_ndarray (shape a) (map f (data a)).

End NumPy.

Import NumPy.

(** ** The airfoil callback handed to CCBlade *)

Section Interp.

Variable A : Type.

(** The interpolant returned by
    [ViternaAirfoil().create_akima('mh117', ...)]. *)
Variable interp : ndarray A -> ndarray A.

(** Whether the strides of the array the interpolant returns for [x] let
    NumPy view it under the shape [s] without a copy. *)
Variable strides_fit : ndarray A -> list nat -> bool.

(** [ccblade_interp], nested in [main] (lines 49-58).  [Mach] is received and
    never read. *)
Definition ccblade_interp (alpha Re Mach : ndarray A)
  : option (ndarray A * ndarray A) :=
  (let shape := shape alpha in
   a <-? newaxis1 (flatten alpha) ;;
   r <-? newaxis1 (flatten Re) ;;
   x <-? concatenate_last a r ;;
   let y := interp x in
   y <-? set_shape (strides_fit x (shape ++ [2])) y (shape ++ [2]) ;;
   y0 <-? index_last 0 y ;;
   y1 <-? index_last 1 y ;;
   Some (y0, y1))%opt.

End Interp.

(** ** Numbers *)

Section Numbers.

#[local] Open Scope float_scope.

(** [np.pi], the binary64 number nearest to pi. *)
Definition np_pi : float := 3.141592653589793.

(** A Python [int] of magnitude below 2^63 converted to a float, as NumPy
    and Python do when an [int] meets a float in arithmetic (exact below
    2^53, rounded to nearest above).  Larger integers are outside this
    definition: it is used on the constants of the script, and on the number
    of blades under the bound [small_int]. *)
Definition float_of_int (n : Z) : float :=
  if (n <? 0)%Z then - of_uint63 (Uint63.of_Z (- n)) else of_uint63 (Uint63.of_Z n).

(** [np.arange(n)] for an integer [n]. *)
Definition np_arange (n : Z) : list Z := map Z.of_nat (seq 0 (Z.to_nat n)).

(** The list [l] with its last entry replaced by [v]. *)
Fixpoint set_last (l : list float) (v : float) : list float :=
  match l with
  | [] => []
  | [_] => [v]
  | x :: t => x :: set_last t v
  end.

(** [np.linspace(start, stop, num)] with the end point included: the indices
    scaled by the step and shifted by [start], the last entry then overwritten
    with [stop]. *)
Definition np_linspace (start stop : float) (num : Z) : list float :=
  let div := (num - 1)%Z in
  let delta := stop - start in
  let y := map float_of_int (np_arange num) in
  let y :=
    if (0 <? div)%Z then
      let step := delta / float_of_int div in
      if step =? 0
      then map (fun v => v / float_of_int div * delta) y
      else map (fun v => v * step) y
    else map (fun v => v * delta) y in
  let y := map (fun v => v + start) y in
  if (1 <? num)%Z then set_last y stop else y.

(** The integers [float_of_int] converts as Python does. *)
Definition small_int (n : Z) : Prop := (Z.abs n < 2 ^ 63)%Z.

(** [a * n] for a float array [a] and a Python [int] [n] within
    [small_int]. *)
Definition mul_int (a : ndarray float) (n : Z) : ndarray float :=
  amap (fun v => v * float_of_int n) a.

End Numbers.

(** ** The OpenMDAO objects the script builds

    The framework's objects are records of what the script has declared on
    them; each method returns the updated object. *)

Module OpenMDAO.

(** A [val=] argument: a float or a one-dimensional array. *)
Inductive Val : Type :=
| VFloat (x : float)
| VArray (a : list float).

Record Output : Type := mk_output
  { out_name : string;
    out_val : Val;
    out_shape : option Z;
    out_units : string }.

Record IndepVarComp : Type := mk_indep
  { discrete_inputs : list (string * Z);
    outputs : list Output }.

(** Signature of the airfoil callback: [(alpha, Re, Mach) -> (cl, cd)]. *)
Definition AirfoilInterp : Type :=
  ndarray float -> ndarray float -> ndarray float ->
  option (ndarray float * ndarray float).

Inductive Component : Type :=
| IndepVarComp_ (c : IndepVarComp)
| GeometryGroup (num_nodes num_cp num_radial : Z)
| SimpleInflow (num_nodes num_radial : Z)
| CCBladeGroup (num_nodes num_radial num_blades : Z)
    (airfoil_interp : AirfoilInterp) (turbine : bool)
    (phi_residual_solve_nonlinear : string).

Record Subsystem : Type := mk_subsystem
  { sub_name : string;
    sub_comp : Component;
    promotes : option (list string);
    promotes_inputs : option (list string);
    promotes_outputs : option (list string) }.

Record DesignVar : Type := mk_design_var
  { dv_name : string;
    dv_lower : option float;
    dv_upper : option float;
    dv_scaler : option float }.

Record Objective : Type := mk_objective
  { obj_name : string;
    obj_scaler : option float }.

Record Constraint : Type := mk_constraint
  { con_name : string;
    con_lower : option float;
    con_upper : option float;
    con_equals : option float;
    con_scaler : option float;
    con_indices : option (list Z) }.

Record Group : Type := mk_group
  { subsystems : list Subsystem;
    connections : list (string * string);
    design_vars : list DesignVar;
    objectives : list Objective;
    constraints : list Constraint }.

Inductive DriverClass : Type :=
| Driver_
| pyOptSparseDriver_.

Record Driver : Type := mk_driver
  { driver_class : DriverClass;
    options : list (string * string) }.

Record Problem : Type := mk_problem
  { model : Group;
    driver : Driver }.

(** [IndepVarComp()] *)
Definition IndepVarComp_new : IndepVarComp := mk_indep [] [].

(** [comp.add_discrete_input(name, val=val)] *)
Definition add_discrete_input (c : IndepVarComp) (name : string) (val : Z)
  : IndepVarComp :=
  mk_indep (discrete_inputs c ++ [(name, val)]) (outputs c).

(** [comp.add_output(name, val=val, shape=shape, units=units)] *)
Definition add_output (c : IndepVarComp) (name : string) (val : Val)
  (shape : option Z) (units : string) : IndepVarComp :=
  mk_indep (discrete_inputs c) (outputs c ++ [mk_output name val shape units]).

(** [Problem()]: an empty model and the framework's default driver. *)
Definition Problem_new : Problem :=
  mk_problem (mk_group [] [] [] [] []) (mk_driver Driver_ []).

(** [pyOptSparseDriver()] *)
Definition pyOptSparseDriver : Driver := mk_driver pyOptSparseDriver_ [].

(** A method of [prob.model] applied in place. *)
Definition on_model (f : Group -> Group) (p : Problem) : Problem :=
  mk_problem (f (model p)) (driver p).

(** [prob.model.add_subsystem(name, comp, promotes=.., promotes_inputs=..,
    promotes_outputs=..)] *)
Definition add_subsystem (name : string) (comp : Component)
  (pr pin pout : option (list string)) : Problem -> Problem :=
  on_model (fun g =>
    mk_group (subsystems g ++ [mk_subsystem name comp pr pin pout])
      (connections g) (design_vars g) (objectives g) (constraints g)).

(** [prob.model.connect(src, tgt)]; the script never calls it. *)
Definition connect (src tgt : string) : Problem -> Problem :=
  on_model (fun g =>
    mk_group (subsystems g) (connections g ++ [(src, tgt)])
      (design_vars g) (objectives g) (constraints g)).

(** [prob.model.add_design_var(name, lower=.., upper=.., scaler=..)] *)
Definition add_design_var (name : string) (lower upper scaler : option float)
  : Problem -> Problem :=
  on_model (fun g =>
    mk_group (subsystems g) (connections g)
      (design_vars g ++ [mk_design_var name lower upper scaler])
      (objectives g) (constraints g)).

(** [prob.model.add_objective(name, scaler=..)] *)
Definition add_objective (name : string) (scaler : option float)
  : Problem -> Problem :=
  on_model (fun g =>
    mk_group (subsystems g) (connections g) (design_vars g)
      (objectives g ++ [mk_objective name scaler]) (constraints g)).

(** [prob.model.add_constraint(name, equals=.., scaler=.., indices=..)];
    [lower] and [upper] are the keywords the script leaves out. *)
Definition add_constraint (name : string) (lower upper equals scaler : option float)
  (indices : option (list Z)) : Problem -> Problem :=
  on_model (fun g =>
    mk_group (subsystems g) (connections g) (design_vars g) (objectives g)
      (constraints g ++ [mk_constraint name lower upper equals scaler indices])).

(** [prob.driver = d] *)
Definition set_driver (d : Driver) (p : Problem) : Problem :=
  mk_problem (model p) d.

(** A dictionary assignment [d[key] = v] on an association list. *)
Fixpoint dict_set (d : list (string * string)) (key v : string)
  : list (string * string) :=
  match d with
  | [] => [(key, v)]
  | (k, w) :: t =>
      if String.eqb k key then (k, v) :: t else (k, w) :: dict_set t key v
  end.

Fixpoint dict_get (d : list (string * string)) (key : string) : option string :=
  match d with
  | [] => None
  | (k, w) :: t => if String.eqb k key then Some w else dict_get t key
  end.

(** [prob.driver.options[key] = v] *)
Definition set_driver_option (key v : string) (p : Problem) : Problem :=
  mk_problem (model p)
    (mk_driver (driver_class (driver p)) (dict_set (options (driver p)) key v)).

End OpenMDAO.

Import OpenMDAO.

(** ** The outside world

    Calls that reach the framework, the clock, the terminal or the file
    system are events.  The outside world is a state of an unknown type;
    it reacts to every event and answers the script's queries. *)

Record Line : Type := mk_line
  { line_x : ndarray float;
    line_y : ndarray float;
    line_label : string }.

(** A matplotlib figure with its single axes, as drawn so far. *)
Record Figure : Type := mk_figure
  { fig_lines : list Line;
    fig_xlabel : option string;
    fig_ylabel : option string;
    fig_legend : bool }.

Inductive Event : Type :=
| Esetup (p : Problem)
| Efinal_setup (p : Problem)
| Etime (t : float)
| Erun_driver (p : Problem)
| Eget_val (p : Problem) (name units : string)
| Esubplots
| Eprint (s : string)
| Esavefig (fig : Figure) (fname : string)
| Eclose (fig : Figure).

Record Env : Type := mk_env
  { X : Type;
    (** the world after an event *)
    step : Event -> X -> X;
    (** what [time.time()] reads *)
    now : X -> float;
    (** what [prob.get_val(name, units=units)] returns *)
    get_val_result : X -> string -> string -> ndarray float;
    (** [prob.model.ccblade_group.ccblade_comp.options['num_blades']] *)
    num_blades_option : X -> Z;
    (** [ViternaAirfoil().create_akima(name, Re_scaling=.., extend_alpha=..)] *)
    create_akima : string -> bool -> bool -> ndarray float -> ndarray float;
    (** whether the strides of the array that interpolant returns for an
        input fit a shape (see [set_shape]) *)
    akima_strides_fit : ndarray float -> list nat -> bool;
    (** [np.mean] and [np.std] of a one-dimensional array *)
    np_mean : list float -> float;
    np_std : list float -> float;
    (** how an f-string renders a float *)
    format_float : float -> string }.

Section Script.

Variable E : Env.

(** A computation returns a value or raises, moves the world on and leaves
    the events it caused, oldest first. *)
Definition M (A : Type) : Type := X E -> option A * X E * list Event.

Definition ret {A} (a : A) : M A := fun x => (Some a, x, []).

Definition bind {A B} (m : M A) (f : A -> M B) : M B :=
  fun x =>
    match m x with
    | (Some a, x1, l1) =>
        match f a x1 with
        | (r, x2, l2) => (r, x2, l1 ++ l2)
        end
    | (None, x1, l1) => (None, x1, l1)
    end.

(** An operation that may raise, run inside a computation. *)
Definition lift {A} (o : option A) : M A := fun x => (o, x, []).

(** An external call without a result. *)
Definition emit (e : Event) : M unit := fun x => (Some tt, step E e x, [e]).

(** A query answered by the world without an event. *)
Definition ask {A} (q : X E -> A) : M A := fun x => (Some (q x), x, []).

End Script.

Arguments ret {E A} a.
Arguments bind {E A B} m f.
Arguments lift {E A} o.
Arguments ask {E A} q.

Declare Scope script_scope.
Delimit Scope script_scope with script.
Notation "x <- m ;; k" := (bind m (fun x => k))
  (at level 61, m at next level, right associativity) : script_scope.
Notation "m ;; k" := (bind m (fun _ => k))
  (at level 61, right associativity) : script_scope.

Section Program.

Variable E : Env.

#[local] Open Scope string_scope.
#[local] Open Scope script_scope.

(** [time.time()] *)
Definition time_time : M E float :=
  fun x => let t := now E x in (Some t, step E (Etime t) x, [Etime t]).

(** [prob.get_val(name, units=units)] *)
Definition get_val (prob : Problem) (name units : string) : M E (ndarray float) :=
  fun x =>
    (Some (get_val_result E x name units),
     step E (Eget_val prob name units) x,
     [Eget_val prob name units]).

(** [plt.subplots()]: a fresh figure with empty axes. *)
Definition plt_subplots : M E Figure :=
  emit E Esubplots ;; ret (mk_figure [] None None false).

(** Length of the first axis once a scalar is seen as a one-entry array. *)
Definition first_dim (a : ndarray float) : nat :=
  match shape a with
  | [] => 1
  | n :: _ => n
  end.

(** Number of columns: that of a two-axis array, one otherwise. *)
Definition ncols (a : ndarray float) : nat :=
  match shape a with
  | [_; c] => c
  | _ => 1
  end.

(** What [ax.plot(x, y)] accepts: [x] and [y] of the same first dimension, of
    at most two axes, and not of two different numbers (above one) of
    columns. *)
Definition plot_ok (x y : ndarray float) : bool :=
  ((first_dim x =? first_dim y)
   && (ndim x <=? 2) && (ndim y <=? 2)
   && negb ((1 <? ncols x) && (1 <? ncols y) && negb (ncols x =? ncols y)))%nat.

(** [ax.plot(x, y, label=label)]: raises [ValueError] on arrays it does not
    accept. *)
Definition ax_plot (fig : Figure) (x y : ndarray float) (label : string)
  : option Figure :=
  if plot_ok x y
  then Some (mk_figure (fig_lines fig ++ [mk_line x y label])
               (fig_xlabel fig) (fig_ylabel fig) (fig_legend fig))
  else None.

(** [ax.set_xlabel(s)] *)
Definition ax_set_xlabel (fig : Figure) (s : string) : Figure :=
  mk_figure (fig_lines fig) (Some s) (fig_ylabel fig) (fig_legend fig).

(** [ax.set_ylabel(s)] *)
Definition ax_set_ylabel (fig : Figure) (s : string) : Figure :=
  mk_figure (fig_lines fig) (fig_xlabel fig) (Some s) (fig_legend fig).

(** [ax.legend()] *)
Definition ax_legend (fig : Figure) : Figure :=
  mk_figure (fig_lines fig) (fig_xlabel fig) (fig_ylabel fig) true.

(** [make_plots] (lines 11-42). *)
Definition make_plots (prob : Problem) : M E unit :=
  let node := 0%nat in
  num_blades <- ask (num_blades_option E) ;;
  a <- get_val prob "radii" "m" ;;
  radii <- lift (row node a) ;;
  a <- get_val prob "ccblade_group.Np" "N/m" ;;
  a <- lift (row node a) ;;
  let ccblade_normal_load := mul_int a num_blades in
  a <- get_val prob "ccblade_group.Tp" "N/m" ;;
  a <- lift (row node a) ;;
  let ccblade_circum_load := mul_int a num_blades in

  fig <- plt_subplots ;;
  fig <- lift (ax_plot fig radii ccblade_normal_load "CCBlade.jl") ;;
  let fig := ax_set_xlabel fig "blade element radius, m" in
  let fig := ax_set_ylabel fig "normal load, N/m" in
  let fig := ax_legend fig in
  let fname := "pyccblade_normal_load.png" in
  emit E (Eprint fname) ;;
  emit E (Esavefig fig fname) ;;
  emit E (Eclose fig) ;;

  fig <- plt_subplots ;;
  fig <- lift (ax_plot fig radii ccblade_circum_load "CCBlade.jl") ;;
  let fig := ax_set_xlabel fig "blade element radius, m" in
  let fig := ax_set_ylabel fig "circumferential load, N/m" in
  let fig := ax_legend fig in
  let fname := "pyccblade_circum_load.png" in
  emit E (Eprint fname) ;;
  emit E (Esavefig fig fname) ;;
  emit E (Eclose fig).

(** The problem [main] has assembled when it reaches [prob.setup()]
    (lines 46-127). *)
Definition main_problem : Problem :=
  let interp := create_akima E "mh117" false true in
  let ccblade_interp := ccblade_interp interp (akima_strides_fit E) in

  let num_nodes := 1%Z in
  let num_blades := 3%Z in
  let num_radial := 15%Z in
  let num_cp := 6%Z in
  let chord := 10%float in
  let theta :=
    map (fun v => v * np_pi / 180)%float (np_linspace 65 25 num_cp) in
  let pitch := 0%float in

  let hub_diameter := 30%float in
  let prop_diameter := 150%float in
  let c0 := PrimFloat.sqrt (1.4 * 287.058 * 300)%float in
  let rho0 := (1.4 * 98600 / (c0 * c0))%float in
  let omega := 236%float in

  let prob := Problem_new in

  let comp := IndepVarComp_new in
  let comp := add_discrete_input comp "B" num_blades in
  let comp := add_output comp "rho" (VFloat rho0) (Some num_nodes) "kg/m**3" in
  let comp := add_output comp "mu" (VFloat 1) (Some num_nodes) "N/m**2*s" in
  let comp := add_output comp "asound" (VFloat c0) (Some num_nodes) "m/s" in
  let comp := add_output comp "v" (VFloat 77.2) (Some num_nodes) "m/s" in
  let comp := add_output comp "alpha" (VFloat 0) (Some num_nodes) "rad" in
  let comp := add_output comp "incidence" (VFloat 0) (Some num_nodes) "rad" in
  let comp := add_output comp "precone" (VFloat 0) None "deg" in
  let comp := add_output comp "omega" (VFloat omega) (Some num_nodes) "rad/s" in
  let comp := add_output comp "hub_diameter" (VFloat hub_diameter) (Some num_nodes) "cm" in
  let comp := add_output comp "prop_diameter" (VFloat prop_diameter) (Some num_nodes) "cm" in
  let comp := add_output comp "pitch" (VFloat pitch) (Some num_nodes) "rad" in
  let comp := add_output comp "chord_dv" (VFloat chord) (Some num_cp) "cm" in
  let comp := add_output comp "theta_dv" (VArray theta) (Some num_cp) "rad" in
  let prob :=
    add_subsystem "indep_var_comp" (IndepVarComp_ comp) (Some ["*"]) None None prob in

  let comp := GeometryGroup num_nodes num_cp num_radial in
  let prob :=
    add_subsystem "geometry_group" comp None
      (Some ["hub_diameter"; "prop_diameter"; "chord_dv"; "theta_dv"; "pitch"])
      (Some ["radii"; "dradii"; "chord"; "theta"]) prob in

  let comp := SimpleInflow num_nodes num_radial in
  let prob :=
    add_subsystem "inflow_comp" comp None
      (Some ["v"; "omega"; "radii"; "precone"])
      (Some ["Vx"; "Vy"]) prob in

  let comp :=
    CCBladeGroup num_nodes num_radial num_blades ccblade_interp false
      "bracketing" in
  let prob :=
    add_subsystem "ccblade_group" comp None
      (Some ["radii"; "dradii"; "chord"; "theta"; "rho";
             "mu"; "asound"; "v"; "omega"; "Vx"; "Vy"; "precone";
             "hub_diameter"; "prop_diameter"])
      (Some ["thrust"; "torque"; "efficiency"]) prob in

  let prob :=
    add_design_var "chord_dv" (Some 1%float) (Some 20%float)
      (Some 5e-2%float) prob in
  let prob :=
    add_design_var "theta_dv" (Some (20 * np_pi / 180)%float)
      (Some (float_of_int 90 * np_pi / 180)%float) None prob in

  let prob := add_objective "efficiency" (Some (-1)%float) prob in
  let prob :=
    add_constraint "thrust" None None (Some 700%float) (Some 1e-3%float)
      (Some (np_arange num_nodes)) prob in
  let prob := set_driver pyOptSparseDriver prob in
  let prob := set_driver_option "optimizer" "SNOPT" prob in
  prob.

(** [main] from [prob.setup()] on (lines 129-137). *)
Definition main : M E float :=
  let prob := main_problem in
  emit E (Esetup prob) ;;
  emit E (Efinal_setup prob) ;;
  st <- time_time ;;
  emit E (Erun_driver prob) ;;
  t <- time_time ;;
  let elapsed_time := (t - st)%float in

  make_plots prob ;;

  ret elapsed_time.

(** [[c for _ in range(n)]] *)
Fixpoint repeatM {A} (n : nat) (c : M E A) : M E (list A) :=
  match n with
  | O => ret []
  | S k => a <- c ;; l <- repeatM k c ;; ret (a :: l)
  end.

(** The f-string printed at the end. *)
Definition report (mean std : float) : string :=
  "average walltime = " ++ format_float E mean
    ++ " s, stddev = " ++ format_float E std ++ " s".

(** The module run as a script (lines 140-143). *)
Definition script : M E unit :=
  main ;;
  times <- repeatM 20 main ;;
  emit E (Eprint (report (np_mean E times) (np_std E times))).

End Program.

(** ** Reading a run *)

Section Runs.

Variable E : Env.
Variable A : Type.

Definition result (r : option A * X E * list Event) : option A := fst (fst r).
Definition world (r : option A * X E * list Event) : X E := snd (fst r).
Definition trace (r : option A * X E * list Event) : list Event := snd r.

End Runs.

Arguments result {E A} r.
Arguments world {E A} r.
Arguments trace {E A} r.

Definition is_run_driver (e : Event) : bool :=
  match e with
  | Erun_driver _ => true
  | _ => false
  end.

(** The events [make_plots] can cause. *)
Definition plotting (e : Event) : bool :=
  match e with
  | Eget_val _ _ _ | Esubplots | Eprint _ | Esavefig _ _ | Eclose _ => true
  | Esetup _ | Efinal_setup _ | Etime _ | Erun_driver _ => false
  end.

(** The names of the files written, in order. *)
Fixpoint saved_files (l : list Event) : list string :=
  match l with
  | [] => []
  | Esavefig _ fname :: t => fname :: saved_files t
  | _ :: t => saved_files t
  end.

(** One complete call of [main] on problem [P]: its events and the elapsed
    time it returns.  The two clock readings enclose [run_driver] and nothing
    else. *)
Inductive one_run (P : Problem) : list Event -> float -> Prop :=
| one_run_intro (t0 t1 : float) (plots : list Event) :
    Forall (fun e => plotting e = true) plots ->
    one_run P
      ([Esetup P; Efinal_setup P; Etime t0; Erun_driver P; Etime t1] ++ plots)
      (t1 - t0)%float.

(** ** Reading the assembled problem *)

(** The two columns [xs] and [ys] side by side, row after row. *)
Fixpoint columns {A} (xs ys : list A) : list A :=
  match xs, ys with
  | x :: xs', y :: ys' => x :: y :: columns xs' ys'
  | _, _ => []
  end.

(** The N-by-2 array whose columns are the entries of [alpha] and of [Re]. *)
Definition stacked {A} (alpha Re : ndarray A) : ndarray A :=
  mk_ndarray [size alpha; 2] (columns (data alpha) (data Re)).

Definition mem (s : string) (l : list string) : bool :=
  existsb (String.eqb s) l.

Definition opt_list (o : option (list string)) : list string :=
  match o with
  | Some l => l
  | None => []
  end.

(** The names a subsystem makes visible in the model: those listed in
    [promotes_outputs], and with [promotes=['*']] every output the script
    declared on an [IndepVarComp]. *)
Definition provided (s : Subsystem) : list string :=
  opt_list (promotes_outputs s) ++
  match sub_comp s with
  | IndepVarComp_ c =>
      if mem "*" (opt_list (promotes s)) then map out_name (outputs c) else []
  | _ => []
  end.

(** Every name a subsystem lists in [promotes_inputs] is provided by a
    subsystem added before it. *)
Fixpoint wired (avail : list string) (subs : list Subsystem) : bool :=
  match subs with
  | [] => true
  | s :: t =>
      forallb (fun i => mem i avail) (opt_list (promotes_inputs s))
      && wired (avail ++ provided s) t
  end.

Definition find_subsystem (name : string) (p : Problem) : option Subsystem :=
  find (fun s => String.eqb (sub_name s) name) (subsystems (model p)).

(** Every name [producer] promotes as an output is promoted as an input by
    [consumer]. *)
Definition consumes_all (producer consumer : Subsystem) : bool :=
  forallb (fun n => mem n (opt_list (promotes_inputs consumer)))
    (opt_list (promotes_outputs producer)).

(** What the script says about the ports of a subsystem. *)
Definition ports (s : Subsystem)
  : string * option (list string) * option (list string) * option (list string) :=
  (sub_name s, promotes s, promotes_inputs s, promotes_outputs s).

(** The outputs declared on the [IndepVarComp]s of a problem. *)
Definition declared_outputs (p : Problem) : list Output :=
  flat_map (fun s =>
              match sub_comp s with
              | IndepVarComp_ c => outputs c
              | _ => []
              end) (subsystems (model p)).

Definition find_output (name : string) (p : Problem) : option Output :=
  find (fun o => String.eqb (out_name o) name) (declared_outputs p).

(** The entries of a [val=] argument. *)
Definition entries (v : Val) : list float :=
  match v with
  | VFloat x => [x]
  | VArray a => a
  end.

(** The callback installed on the components of a problem. *)
Definition callbacks (p : Problem) : list AirfoilInterp :=
  flat_map (fun s =>
              match sub_comp s with
              | CCBladeGroup _ _ _ f _ _ => [f]
              | _ => []
              end) (subsystems (model p)).

(** Every array the world hands back has two axes, at least one node and
    [m] radial stations, and the number of blades is within [small_int]. *)
Definition plots_available (E : Env) (m : nat) : Prop :=
  (forall (x : X E) (name units : string),
      exists n : nat, shape (get_val_result E x name units) = [S n; m])
  /\ (forall x : X E, small_int (num_blades_option E x)).

(** ** A small world to run the script in *)

(** The world counts the events it has seen; the clock shows that count and
    every variable read back is a 1-by-3 array. *)
Definition counting_world : Env :=
  mk_env (X := nat)
    (fun _ n => S n)
    (fun n => float_of_int (Z.of_nat n))
    (fun n _ _ =>
       mk_ndarray [1; 3] [1%float; 2%float; float_of_int (Z.of_nat n)])
    (fun _ => 3%Z)
    (fun _ _ _ x => x)
    (fun _ _ => false)
    (fun l => hd 0%float l)
    (fun _ => 0%float)
    (fun _ => "t"%string).


(** Two 2-by-2 arrays, a scalar array and an interpolant that returns its
    input, to run [ccblade_interp] on. *)
Definition alpha_2x2 : ndarray Z := mk_ndarray [2; 2] [1; 2; 3; 4]%Z.
Definition Re_2x2 : ndarray Z := mk_ndarray [2; 2] [5; 6; 7; 8]%Z.
Definition Mach_0d : ndarray Z := mk_ndarray [] [0%Z].
Definition echo (x : ndarray Z) : ndarray Z := x.

(** ** Further readings of arrays, events and the problem *)

(** [g] applied to the entries of [xs] and [ys], pair by pair. *)
Fixpoint map2 {A} (g : A -> A -> A) (xs ys : list A) : list A :=
  match xs, ys with
  | x :: xs', y :: ys' => g x y :: map2 g xs' ys'
  | _, _ => []
  end.

(** The rows [(a, r)] of an N-by-2 array replaced by [(g a r, h a r)]. *)
Fixpoint per_row {A} (g h : A -> A -> A) (l : list A) : list A :=
  match l with
  | a :: r :: t => g a r :: h a r :: per_row g h t
  | _ => []
  end.

(** An interpolant that works row by row and keeps the shape. *)
Definition rowwise {A} (g h : A -> A -> A) (x : ndarray A) : ndarray A :=
  mk_ndarray (shape x) (per_row g h (data x)).

(** An array of four entries in one axis. *)
Definition Re_flat4 : ndarray Z := mk_ndarray [4] [5; 6; 7; 8]%Z.

Definition is_get_val (e : Event) : bool :=
  match e with
  | Eget_val _ _ _ => true
  | _ => false
  end.

(** The figures saved, in order. *)
Fixpoint saved_figures (l : list Event) : list Figure :=
  match l with
  | [] => []
  | Esavefig fig _ :: t => fig :: saved_figures t
  | _ :: t => saved_figures t
  end.

(** Figures open after the events [l], [n] being open before them. *)
Fixpoint figures_open (l : list Event) (n : nat) : nat :=
  match l with
  | [] => n
  | Esubplots :: t => figures_open t (S n)
  | Eclose _ :: t => figures_open t (Nat.pred n)
  | _ :: t => figures_open t n
  end.

(** The largest number of figures open at once during [l]. *)
Fixpoint peak_open (l : list Event) (n : nat) : nat :=
  match l with
  | [] => n
  | Esubplots :: t => Nat.max n (peak_open t (S n))
  | Eclose _ :: t => Nat.max n (peak_open t (Nat.pred n))
  | _ :: t => peak_open t n
  end.

(** [s] begins with [p]. *)
Fixpoint starts_with (p s : string) : bool :=
  match p with
  | EmptyString => true
  | String a p' =>
      match s with
      | EmptyString => false
      | String b s' => Ascii.eqb a b && starts_with p' s'
      end
  end.

(** The line the script prints at its end. *)
Definition is_report_line (e : Event) : bool :=
  match e with
  | Eprint s => starts_with "average walltime = " s
  | _ => false
  end.

(** Every name visible in the model as an output. *)
Definition model_outputs (p : Problem) : list string :=
  flat_map provided (subsystems (model p)).

(** The names a subsystem promotes as inputs: those listed in
    [promotes_inputs], and with [promotes=['*']] every discrete input the
    script declared on an [IndepVarComp]. *)
Definition promoted_inputs (s : Subsystem) : list string :=
  opt_list (promotes_inputs s) ++
  match sub_comp s with
  | IndepVarComp_ c =>
      if mem "*" (opt_list (promotes s))
      then map fst (discrete_inputs c)
      else []
  | _ => []
  end.

(** Every name some subsystem promotes as an input. *)
Definition consumed (p : Problem) : list string :=
  flat_map promoted_inputs (subsystems (model p)).

(** The subsystems that promote [name] as an input. *)
Definition consumers (name : string) (p : Problem) : list string :=
  map sub_name
    (filter (fun s => mem name (promoted_inputs s)) (subsystems (model p))).

(** The names the optimisation problem is stated on. *)
Definition optimised (p : Problem) : list string :=
  map dv_name (design_vars (model p))
    ++ map obj_name (objectives (model p))
    ++ map con_name (constraints (model p)).

(** No name occurs twice. *)
Fixpoint distinct (l : list string) : bool :=
  match l with
  | [] => true
  | n :: t => negb (mem n t) && distinct t
  end.

(** Three angles and three Reynolds numbers in one axis, and an interpolant
    that answers with the transpose of its two-axis input. *)
Definition alpha_3 : ndarray Z := mk_ndarray [3] [1; 2; 3]%Z.
Definition Re_3 : ndarray Z := mk_ndarray [3] [4; 5; 6]%Z.
Definition transposed (x : ndarray Z) : ndarray Z :=
  match shape x with
  | [n; k] =>
      mk_ndarray [k; n] (flat_map (fun j => pick n k j (data x)) (seq 0 k))
  | _ => x
  end.

(** Strides that fit no shape beyond those that always fit, and strides that
    fit every shape. *)
Definition never_fit {A} (_ : ndarray A) (_ : list nat) : bool := false.
Definition always_fit {A} (_ : ndarray A) (_ : list nat) : bool := true.

(** A world like [counting_world] in which [Tp] has four radial stations
    where [radii] and [Np] have three. *)
Definition uneven_world : Env :=
  mk_env (X := nat)
    (fun _ n => S n)
    (fun n => float_of_int (Z.of_nat n))
    (fun n name _ =>
       if String.eqb name "ccblade_group.Tp"
       then mk_ndarray [1; 4] [1%float; 2%float; 3%float; 4%float]
       else mk_ndarray [1; 3] [1%float; 2%float; float_of_int (Z.of_nat n)])
    (fun _ => 3%Z)
    (fun _ _ _ x => x)
    (fun _ _ => false)
    (fun l => hd 0%float l)
    (fun _ => 0%float)
    (fun _ => "t"%string).

(** * Properties *)

(** ** Arrays *)

Lemma split_last_snoc (s : list nat) (m : nat) :
  split_last (s ++ [m]) = Some (s, m).
Proof.
  unfold split_last. rewrite rev_app_distr. simpl.
  now rewrite rev_involutive.
Qed.

Lemma prod_snoc (s : list nat) (m : nat) : prod (s ++ [m]) = prod s * m.
Proof.
  induction s as [|n s IH]; simpl.
  - lia.
  - rewrite IH. lia.
Qed.

(** Weaving two columns of width one is pairing them up. *)
Lemma weave_columns {A} (n : nat) :
  forall xs ys : list A,
    length xs = n -> length ys = n -> weave n 1 1 xs ys = columns xs ys.
Proof.
  induction n as [|n IH]; intros xs ys Hx Hy.
  - destruct xs; [reflexivity | discriminate].
  - destruct xs as [|x xs]; [discriminate|].
    destruct ys as [|y ys]; [discriminate|].
    simpl. f_equal. f_equal. apply IH; simpl in *; lia.
Qed.

Lemma columns_length {A} :
  forall xs ys : list A,
    length xs = length ys -> length (columns xs ys) = length xs * 2.
Proof.
  induction xs as [|x xs IH]; intros [|y ys] H; simpl in *; try discriminate.
  - reflexivity.
  - rewrite IH by lia. lia.
Qed.

Lemma firstn1_skipn {A} (k : nat) (xs : list A) :
  firstn 1 (skipn k xs) =
  match nth_error xs k with
  | Some x => [x]
  | None => []
  end.
Proof.
  revert xs. induction k as [|k IH]; intros [|x xs]; try reflexivity.
  change (skipn (S k) (x :: xs)) with (skipn k xs).
  change (nth_error (x :: xs) (S k)) with (nth_error xs k).
  apply IH.
Qed.

Lemma pick_S {A} (rows m k : nat) (xs : list A) :
  pick (S rows) m k xs = firstn 1 (skipn k xs) ++ pick rows m k (skipn m xs).
Proof. reflexivity. Qed.

Lemma pick_length {A} (m k : nat) :
  k < m ->
  forall rows (xs : list A),
    rows * m <= length xs -> length (pick rows m k xs) = rows.
Proof.
  intros Hk. induction rows as [|rows IH]; intros xs Hlen; [reflexivity|].
  rewrite pick_S, length_app, firstn1_skipn.
  destruct (nth_error xs k) as [x|] eqn:Hx.
  - simpl. f_equal. apply IH. rewrite length_skipn. simpl in Hlen. lia.
  - apply nth_error_None in Hx. simpl in Hlen. lia.
Qed.

(** Entry [i] of [y[..., k]] is entry [i * m + k] of the flat data of [y]. *)
Lemma pick_nth {A} (m k : nat) :
  k < m ->
  forall rows (xs : list A) i,
    i < rows -> rows * m <= length xs ->
    nth_error (pick rows m k xs) i = nth_error xs (i * m + k).
Proof.
  intros Hk. induction rows as [|rows IH]; intros xs i Hi Hlen; [lia|].
  rewrite pick_S, firstn1_skipn.
  destruct (nth_error xs k) as [x|] eqn:Hx.
  - destruct i as [|i]; simpl.
    + now rewrite Hx.
    + rewrite IH.
      * rewrite nth_error_skipn. f_equal. lia.
      * lia.
      * rewrite length_skipn. simpl in Hlen. lia.
  - apply nth_error_None in Hx. simpl in Hlen. lia.
Qed.

Lemma always_in_place_split (s : list nat) (k : nat) :
  always_in_place [prod s; k] (s ++ [k]) = true.
Proof.
  unfold always_in_place. rewrite split_last_snoc, !Nat.eqb_refl.
  apply orb_true_r.
Qed.

Section InterpFacts.

Variable A : Type.
Variable interp : ndarray A -> ndarray A.
Variable strides_fit : ndarray A -> list nat -> bool.

(** The array handed to the interpolant. *)
Lemma ccblade_interp_input (alpha Re : ndarray A) :
  wf alpha -> wf Re -> shape alpha = shape Re ->
  obind (newaxis1 (flatten alpha))
    (fun a => obind (newaxis1 (flatten Re)) (fun r => concatenate_last a r))
  = Some (stacked alpha Re).
Proof.
  intros Ha Hr Hs. unfold wf in *.
  assert (HN : size Re = size alpha) by (unfold size; now rewrite Hs).
  unfold flatten, newaxis1, concatenate_last, split_last, stacked. simpl.
  rewrite HN, Nat.eqb_refl. simpl. rewrite Nat.mul_1_r.
  rewrite weave_columns; [reflexivity | assumption | lia].
Qed.

(** C1. For arrays [alpha] and [Re] of one shape (and any [Mach]),
    [ccblade_interp] returns the pair [(y[..., 0], y[..., 1])] where [y] holds
    the entries the interpolant returned for the N-by-2 array of the flattened
    [alpha] and [Re] columns, viewed with the shape of [alpha] followed by an
    axis of length 2.  Both results have the shape of [alpha], and entry [i]
    of each is entry [2 i], respectively [2 i + 1], of the interpolant's
    output: nothing is computed on the way.  The interpolant is assumed to
    return a well-formed array of the shape of its input, N rows of two
    entries; such an array takes the new shape in place whatever its
    strides. *)
Theorem ccblade_interp_returns_interpolant (alpha Re Mach : ndarray A) :
  wf alpha -> wf Re -> shape alpha = shape Re ->
  wf (interp (stacked alpha Re)) ->
  shape (interp (stacked alpha Re)) = [size alpha; 2] ->
  let y := mk_ndarray (shape alpha ++ [2]) (data (interp (stacked alpha Re))) in
  exists cl cd : ndarray A,
    ccblade_interp interp strides_fit alpha Re Mach = Some (cl, cd) /\
    index_last 0 y = Some cl /\ index_last 1 y = Some cd /\
    shape cl = shape alpha /\ shape cd = shape alpha /\
    wf cl /\ wf cd /\
    forall i, i < size alpha ->
      nth_error (data cl) i = nth_error (data (interp (stacked alpha Re))) (2 * i) /\
      nth_error (data cd) i = nth_error (data (interp (stacked alpha Re))) (2 * i + 1).
Proof.
  intros Ha Hr Hs Hy Hsh y.
  assert (Hsz : size (interp (stacked alpha Re)) = size alpha * 2).
  { unfold size at 1. rewrite Hsh. simpl. lia. }
  pose proof (ccblade_interp_input Ha Hr Hs) as Hx.
  set (d := data (interp (stacked alpha Re))) in *.
  assert (Hd : size alpha * 2 <= length d).
  { unfold d. unfold wf in Hy. rewrite Hy, Hsz. lia. }
  exists (mk_ndarray (shape alpha) (pick (size alpha) 2 0 d)),
         (mk_ndarray (shape alpha) (pick (size alpha) 2 1 d)).
  assert (H0 : index_last 0 y = Some (mk_ndarray (shape alpha) (pick (size alpha) 2 0 d))).
  { unfold index_last, y. simpl. now rewrite split_last_snoc. }
  assert (H1 : index_last 1 y = Some (mk_ndarray (shape alpha) (pick (size alpha) 2 1 d))).
  { unfold index_last, y. simpl. now rewrite split_last_snoc. }
  split; [|split; [exact H0|split; [exact H1|]]].
  - unfold ccblade_interp.
    destruct (newaxis1 (flatten alpha)) as [a|]; [|discriminate].
    destruct (newaxis1 (flatten Re)) as [r|]; [|discriminate].
    simpl in Hx. simpl. rewrite Hx. simpl.
    unfold set_shape. rewrite prod_snoc, Hsz, Nat.eqb_refl, Hsh.
    change (size alpha) with (prod (shape alpha)).
    rewrite always_in_place_split. simpl.
    fold d. fold y. rewrite H0, H1. reflexivity.
  - repeat split; simpl; unfold wf; simpl.
    + apply pick_length; [lia | exact Hd].
    + apply pick_length; [lia | exact Hd].
    + rewrite pick_nth by (lia || exact Hd). f_equal. lia.
    + rewrite pick_nth by (lia || exact Hd). f_equal. lia.
Qed.

End InterpFacts.

Lemma ccblade_interp_returns_interpolant_witness :
  (wf alpha_2x2 /\ wf Re_2x2 /\ shape alpha_2x2 = shape Re_2x2 /\
   wf (echo (stacked alpha_2x2 Re_2x2)) /\
   shape (echo (stacked alpha_2x2 Re_2x2)) = [size alpha_2x2; 2]) /\
  let y :=
    mk_ndarray (shape alpha_2x2 ++ [2])
      (data (echo (stacked alpha_2x2 Re_2x2))) in
  exists cl cd : ndarray Z,
    ccblade_interp echo never_fit alpha_2x2 Re_2x2 Mach_0d = Some (cl, cd) /\
    index_last 0 y = Some cl /\ index_last 1 y = Some cd /\
    shape cl = shape alpha_2x2 /\ shape cd = shape alpha_2x2 /\
    wf cl /\ wf cd /\
    forall i, i < size alpha_2x2 ->
      nth_error (data cl) i =
        nth_error (data (echo (stacked alpha_2x2 Re_2x2))) (2 * i) /\
      nth_error (data cd) i =
        nth_error (data (echo (stacked alpha_2x2 Re_2x2))) (2 * i + 1).
Proof.
  split.
  - repeat split; reflexivity.
  - apply (@ccblade_interp_returns_interpolant Z echo never_fit
             alpha_2x2 Re_2x2 Mach_0d);
      reflexivity.
Defined.

(** What [ccblade_interp] makes of the example arrays. *)
Example ccblade_interp_2x2 :
  ccblade_interp echo never_fit alpha_2x2 Re_2x2 Mach_0d =
  Some (mk_ndarray [2; 2] [1; 2; 3; 4]%Z, mk_ndarray [2; 2] [5; 6; 7; 8]%Z).
Proof. reflexivity. Qed.

(** An interpolant that answers with the wrong number of entries makes the
    shape assignment raise. *)
Example ccblade_interp_bad_interpolant :
  ccblade_interp (fun _ => Mach_0d) always_fit alpha_2x2 Re_2x2 Mach_0d = None.
Proof. reflexivity. Qed.

(** Arrays of different sizes cannot be concatenated. *)
Example ccblade_interp_shape_mismatch :
  ccblade_interp echo always_fit alpha_2x2 Mach_0d Mach_0d = None.
Proof. reflexivity. Qed.

(** An interpolant that answers with the transpose, 2 rows of 3 entries for
    3 rows of 2: the number of entries is right, but its strides do not fit
    and the shape assignment raises. *)
Example ccblade_interp_transposed :
  transposed (stacked alpha_3 Re_3) = mk_ndarray [2; 3] [1; 2; 3; 4; 5; 6]%Z /\
  ccblade_interp transposed never_fit alpha_3 Re_3 Mach_0d = None.
Proof. split; reflexivity. Qed.

(** ** Computations in the outside world *)

Section MonadFacts.

Variable E : Env.

Lemma trace_bind_Forall {A B} (P : Event -> Prop) (m : M E A) (f : A -> M E B)
  (x : X E) :
  Forall P (trace (m x)) ->
  (forall a x', Forall P (trace (f a x'))) ->
  Forall P (trace (bind m f x)).
Proof.
  intros Hm Hf. unfold bind.
  destruct (m x) as [[[a|] x1] l1]; simpl in *; [|assumption].
  specialize (Hf a x1).
  destruct (f a x1) as [[r x2] l2]; simpl in *.
  apply Forall_app. split; assumption.
Qed.

(** Following a computation that returned [a] by [f]. *)
Lemma bind_Some {A B} (m : M E A) (f : A -> M E B) (x x1 : X E) (a : A)
  (l1 : list Event) :
  m x = (Some a, x1, l1) ->
  bind m f x = (result (f a x1), world (f a x1), l1 ++ trace (f a x1)).
Proof.
  intros Hm. unfold bind. rewrite Hm.
  now destruct (f a x1) as [[r x2] l2].
Qed.

(** Running [c] [n] times in a row, when every run of [c] returns: the runs
    are listed with their events and results. *)
Lemma repeatM_runs {A} (c : M E A) (R : list Event -> A -> Prop) :
  (forall x, exists a, result (c x) = Some a /\ R (trace (c x)) a) ->
  forall n x, exists runs : list (list Event * A),
    length runs = n /\
    Forall (fun r => R (fst r) (snd r)) runs /\
    result (repeatM n c x) = Some (map snd runs) /\
    trace (repeatM n c x) = concat (map fst runs).
Proof.
  intros Hc. induction n as [|n IH]; intros x.
  - exists []. repeat split; constructor.
  - destruct (Hc x) as (a & Ha & HR).
    destruct (c x) as [[r x1] l1] eqn:Hcx.
    unfold result, trace in Ha, HR. simpl in Ha, HR. subst r.
    destruct (IH x1) as (runs & Hlen & Hall & Hres & Htr).
    exists ((l1, a) :: runs).
    simpl repeatM. erewrite bind_Some by exact Hcx.
    destruct (repeatM n c x1) as [[r x2] l2] eqn:Hrep.
    unfold result, trace in Hres, Htr. simpl in Hres, Htr. subst r l2.
    erewrite bind_Some by exact Hrep. unfold result, trace. simpl.
    repeat split.
    + now rewrite Hlen.
    + constructor; assumption.
    + now rewrite app_nil_r.
Qed.

End MonadFacts.

(** ** The plots *)

Lemma row0_2d {A} (a : ndarray A) (n m : nat) :
  shape a = [S n; m] ->
  row 0 a = Some (mk_ndarray [m] (firstn m (data a))).
Proof.
  intros Hs. unfold row. rewrite Hs. simpl. now rewrite Nat.mul_1_r.
Qed.

Lemma row0_2d_length {A} (a : ndarray A) (n m : nat) :
  wf a -> shape a = [S n; m] -> length (firstn m (data a)) = m.
Proof.
  unfold wf, size. intros Hw Hs. rewrite Hs in Hw. simpl in Hw.
  rewrite length_firstn. nia.
Qed.

(** Two one-axis arrays of one length can be plotted against each other. *)
Lemma plot_ok_rows (a b : ndarray float) (m : nat) :
  shape a = [m] -> shape b = [m] -> plot_ok a b = true.
Proof.
  intros Ha Hb. unfold plot_ok, first_dim, ndim, ncols.
  rewrite Ha, Hb. simpl. now rewrite Nat.eqb_refl.
Qed.

Section PlotFacts.

Variable E : Env.

#[local] Open Scope string_scope.

(** Whatever the world answers, [make_plots] causes plotting events only. *)
Lemma make_plots_plotting (prob : Problem) (x : X E) :
  Forall (fun e => plotting e = true) (trace (make_plots E prob x)).
Proof.
  unfold make_plots, plt_subplots.
  repeat first
    [ apply trace_bind_Forall; [|intros ? ?]
    | apply Forall_nil
    | apply Forall_cons; [reflexivity|] ].
Qed.

(** The complete run of [make_plots] when the three arrays read back have a
    row [0] and the loads can be plotted against the radii. *)
Lemma make_plots_run (prob : Problem) (x : X E) (radii np tp : ndarray float) :
  let nb := num_blades_option E x in
  let x1 := step E (Eget_val prob "radii" "m") x in
  let x2 := step E (Eget_val prob "ccblade_group.Np" "N/m") x1 in
  row 0 (get_val_result E x "radii" "m") = Some radii ->
  row 0 (get_val_result E x1 "ccblade_group.Np" "N/m") = Some np ->
  row 0 (get_val_result E x2 "ccblade_group.Tp" "N/m") = Some tp ->
  plot_ok radii (mul_int np nb) = true ->
  plot_ok radii (mul_int tp nb) = true ->
  let fig1 :=
    mk_figure [mk_line radii (mul_int np nb) "CCBlade.jl"]
      (Some "blade element radius, m") (Some "normal load, N/m") true in
  let fig2 :=
    mk_figure [mk_line radii (mul_int tp nb) "CCBlade.jl"]
      (Some "blade element radius, m") (Some "circumferential load, N/m")
      true in
  result (make_plots E prob x) = Some tt /\
  trace (make_plots E prob x) =
    [Eget_val prob "radii" "m";
     Eget_val prob "ccblade_group.Np" "N/m";
     Eget_val prob "ccblade_group.Tp" "N/m";
     Esubplots;
     Eprint "pyccblade_normal_load.png";
     Esavefig fig1 "pyccblade_normal_load.png";
     Eclose fig1;
     Esubplots;
     Eprint "pyccblade_circum_load.png";
     Esavefig fig2 "pyccblade_circum_load.png";
     Eclose fig2].
Proof.
  intros nb x1 x2 Hr Hn Ht Hp1 Hp2 fig1 fig2.
  unfold make_plots, plt_subplots.
  cbv beta iota zeta delta
    [bind get_val ask lift emit ret result trace fst snd ax_plot].
  fold x1. rewrite Hr. fold x2. rewrite Hn, Ht.
  cbv beta iota. fold nb. rewrite Hp1. cbv beta iota. rewrite Hp2.
  split; reflexivity.
Qed.

End PlotFacts.

(** ** The assembled problem *)

Section ProblemFacts.

Variable E : Env.

#[local] Open Scope string_scope.

Lemma main_problem_design_vars :
  design_vars (model (main_problem E)) =
  [ mk_design_var "chord_dv" (Some 1%float) (Some 20%float) (Some 5e-2%float);
    mk_design_var "theta_dv" (Some (20 * np_pi / 180)%float)
      (Some (90 * np_pi / 180)%float) None ].
Proof. reflexivity. Qed.

(** C2. [main] declares exactly two design variables on the model, in this
    order: ['chord_dv'] with lower bound 1, upper bound 20 and scaler 5e-2,
    and ['theta_dv'] with lower bound 20*pi/180 and upper bound 90*pi/180 and
    no scaler. *)
Theorem main_declares_two_design_vars :
  design_vars (model (main_problem E)) =
  [ mk_design_var "chord_dv" (Some 1%float) (Some 20%float) (Some 5e-2%float);
    mk_design_var "theta_dv" (Some (20 * np_pi / 180)%float)
      (Some (90 * np_pi / 180)%float) None ]
  /\ length (design_vars (model (main_problem E))) = 2
  /\ NoDup (map dv_name (design_vars (model (main_problem E)))).
Proof.
  rewrite main_problem_design_vars. repeat split.
  repeat constructor; simpl; intuition discriminate.
Qed.

(** C4. [main] adds exactly one constraint: the equality constraint
    ['thrust' = 700] with scaler 1e-3, over the indices
    [np.arange(num_nodes)], that is the single index 0. *)
Theorem main_adds_one_constraint :
  constraints (model (main_problem E)) =
  [ mk_constraint "thrust" None None (Some 700%float) (Some 1e-3%float)
      (Some (np_arange 1)) ]
  /\ np_arange 1 = [0%Z].
Proof. split; reflexivity. Qed.

(** C7. The four subsystems are added in the order [indep_var_comp],
    [geometry_group], [inflow_comp], [ccblade_group] with the promoted names
    the script lists; [indep_var_comp] promotes everything (['*']); no
    [connect] call is made; every promoted input is provided by a subsystem
    added earlier; and [ccblade_group] takes every promoted output of
    [geometry_group] and of [inflow_comp] as an input. *)
Theorem main_wires_by_promotion :
  map ports (subsystems (model (main_problem E))) =
  [ ("indep_var_comp", Some ["*"], None, None);
    ("geometry_group", None,
     Some ["hub_diameter"; "prop_diameter"; "chord_dv"; "theta_dv"; "pitch"],
     Some ["radii"; "dradii"; "chord"; "theta"]);
    ("inflow_comp", None,
     Some ["v"; "omega"; "radii"; "precone"],
     Some ["Vx"; "Vy"]);
    ("ccblade_group", None,
     Some ["radii"; "dradii"; "chord"; "theta"; "rho"; "mu"; "asound"; "v";
           "omega"; "Vx"; "Vy"; "precone"; "hub_diameter"; "prop_diameter"],
     Some ["thrust"; "torque"; "efficiency"]) ]
  /\ connections (model (main_problem E)) = []
  /\ option_map provided (find_subsystem "indep_var_comp" (main_problem E)) =
     Some ["rho"; "mu"; "asound"; "v"; "alpha"; "incidence"; "precone";
           "omega"; "hub_diameter"; "prop_diameter"; "pitch"; "chord_dv";
           "theta_dv"]
  /\ wired [] (subsystems (model (main_problem E))) = true
  /\ exists geometry inflow ccblade : Subsystem,
       find_subsystem "geometry_group" (main_problem E) = Some geometry /\
       find_subsystem "inflow_comp" (main_problem E) = Some inflow /\
       find_subsystem "ccblade_group" (main_problem E) = Some ccblade /\
       consumes_all geometry ccblade = true /\
       consumes_all inflow ccblade = true.
Proof.
  split; [reflexivity|]. split; [reflexivity|].
  split; [reflexivity|]. split; [reflexivity|].
  do 3 eexists. repeat split; reflexivity.
Qed.

(** C9. The starting point lies inside the declared bounds, strictly so: for
    each design variable, every entry of the value declared for the output of
    that name is between the lower and the upper bound.  The chord starts at
    10 (bounds 1 and 20) and theta at [linspace(65, 25, 6) * pi / 180], that
    is 65, 57, 49, 41, 33 and 25 degrees (bounds 20 and 90 degrees). *)
Theorem initial_point_within_bounds :
  Forall
    (fun dv =>
       exists (o : Output) (lo hi : float),
         find_output (dv_name dv) (main_problem E) = Some o /\
         dv_lower dv = Some lo /\ dv_upper dv = Some hi /\
         Forall (fun v => (lo <=? v)%float = true /\ (v <=? hi)%float = true /\
                          (lo <? v)%float = true /\ (v <? hi)%float = true)
           (entries (out_val o)))
    (design_vars (model (main_problem E)))
  /\ option_map out_val (find_output "chord_dv" (main_problem E)) =
     Some (VFloat 10)
  /\ option_map out_val (find_output "theta_dv" (main_problem E)) =
     Some (VArray (map (fun v => v * np_pi / 180)%float (np_linspace 65 25 6)))
  /\ np_linspace 65 25 6 = [65; 57; 49; 41; 33; 25]%float.
Proof.
  split; [|repeat split; reflexivity].
  rewrite main_problem_design_vars.
  apply Forall_cons; [|apply Forall_cons; [|apply Forall_nil]].
  - do 3 eexists. split; [reflexivity|]. split; [reflexivity|].
    split; [reflexivity|]. repeat constructor.
  - do 3 eexists. split; [reflexivity|]. split; [reflexivity|].
    split; [reflexivity|]. repeat constructor.
Qed.

(** C8. [ccblade_interp] does not depend on [Mach]: with the same [alpha]
    and [Re] it returns the same result (or raises alike) for any two values
    of [Mach], for every interpolant; so does the callback [main] hands to
    [CCBladeGroup]. *)
Theorem ccblade_interp_ignores_Mach :
  (forall (A : Type) (interp : ndarray A -> ndarray A)
          (strides_fit : ndarray A -> list nat -> bool)
          (alpha Re Mach1 Mach2 : ndarray A),
      ccblade_interp interp strides_fit alpha Re Mach1 =
      ccblade_interp interp strides_fit alpha Re Mach2)
  /\ callbacks (main_problem E) =
     [ccblade_interp (create_akima E "mh117" false true)
        (akima_strides_fit E)]
  /\ forall f, In f (callbacks (main_problem E)) ->
       forall alpha Re Mach1 Mach2 : ndarray float,
         f alpha Re Mach1 = f alpha Re Mach2.
Proof.
  split; [reflexivity|]. split; [reflexivity|].
  intros f [<-|[]] alpha Re Mach1 Mach2. reflexivity.
Qed.

End ProblemFacts.

(** ** Running [main] and the script *)

Section MainFacts.

Variable E : Env.

#[local] Open Scope string_scope.
#[local] Open Scope list_scope.

Lemma plotting_not_run_driver (l : list Event) :
  Forall (fun e => plotting e = true) l -> filter is_run_driver l = [].
Proof.
  induction 1 as [|e l He _ IH]; [reflexivity|].
  simpl. rewrite IH. now destruct e.
Qed.

(** [main] up to the call of [make_plots], whatever the world does. *)
Lemma main_unfold (x : X E) :
  let P := main_problem E in
  let x2 := step E (Efinal_setup P) (step E (Esetup P) x) in
  let t0 := now E x2 in
  let x4 := step E (Erun_driver P) (step E (Etime t0) x2) in
  let t1 := now E x4 in
  let x5 := step E (Etime t1) x4 in
  trace (main E x) =
    [Esetup P; Efinal_setup P; Etime t0; Erun_driver P; Etime t1]
      ++ trace (make_plots E P x5)
  /\ result (main E x) =
     match result (make_plots E P x5) with
     | Some _ => Some (t1 - t0)%float
     | None => None
     end.
Proof.
  intros P x2 t0 x4 t1 x5. unfold main. fold P.
  cbv beta iota zeta delta [bind time_time emit ret result trace fst snd].
  fold x2. fold t0. fold x4. fold t1. fold x5.
  destruct (make_plots E P x5) as [[[[]|] x6] l6]; simpl.
  - now rewrite app_nil_r.
  - split; reflexivity.
Qed.

(** C3. [main] installs a [pyOptSparseDriver] whose ['optimizer'] option is
    ['SNOPT'], declares ['efficiency'] as the only objective, with scaler -1
    (a negative scaler: the driver maximises it), and calls
    [prob.run_driver()] exactly once, on the assembled problem. *)
Theorem main_optimizer_objective_one_run (x : X E) :
  driver (main_problem E) = mk_driver pyOptSparseDriver_ [("optimizer", "SNOPT")]
  /\ dict_get (options (driver (main_problem E))) "optimizer" = Some "SNOPT"
  /\ objectives (model (main_problem E)) =
     [mk_objective "efficiency" (Some (-1)%float)]
  /\ filter is_run_driver (trace (main E x)) = [Erun_driver (main_problem E)].
Proof.
  split; [reflexivity|]. split; [reflexivity|]. split; [reflexivity|].
  destruct (main_unfold x) as [Htr _]. rewrite Htr, filter_app.
  rewrite (plotting_not_run_driver (@make_plots_plotting E _ _)).
  reflexivity.
Qed.

(** C5. In every run of [main] the events start with [prob.setup()],
    [prob.final_setup()], a clock reading, [prob.run_driver()] and a second
    clock reading; everything [make_plots] does comes after these, so every
    plotting event has a position after that of [run_driver] (position 3). *)
Theorem main_plots_after_run_driver (x : X E) :
  exists (t0 t1 : float) (x5 : X E),
    trace (main E x) =
      [Esetup (main_problem E); Efinal_setup (main_problem E); Etime t0;
       Erun_driver (main_problem E); Etime t1]
        ++ trace (make_plots E (main_problem E) x5)
    /\ Forall (fun e => plotting e = true)
         (trace (make_plots E (main_problem E) x5))
    /\ forall i e,
         nth_error (trace (main E x)) i = Some e -> plotting e = true -> 3 < i.
Proof.
  destruct (main_unfold x) as [Htr _]. cbv zeta in Htr.
  do 3 eexists. split; [exact Htr|]. split; [apply make_plots_plotting|].
  intros i e Hi He. rewrite Htr in Hi.
  destruct i as [|[|[|[|i]]]]; simpl in Hi; try lia;
    injection Hi as <-; discriminate He.
Qed.


(** A run of [main] in a world where the plots can be made. *)
Lemma main_one_run (m : nat) (x : X E) :
  plots_available E m ->
  exists a : float,
    result (main E x) = Some a /\
    one_run (main_problem E) (trace (main E x)) a.
Proof.
  intros [Hshape _]. destruct (main_unfold x) as [Htr Hres].
  cbv zeta in Htr, Hres.
  match type of Hres with
  | context [make_plots E _ ?y] => set (x5 := y) in Htr, Hres
  end.
  assert (Hp : result (make_plots E (main_problem E) x5) = Some tt).
  { set (x6 := step E (Eget_val (main_problem E) "radii" "m") x5).
    set (x7 := step E (Eget_val (main_problem E) "ccblade_group.Np" "N/m") x6).
    destruct (Hshape x5 "radii" "m") as [n1 H1].
    destruct (Hshape x6 "ccblade_group.Np" "N/m") as [n2 H2].
    destruct (Hshape x7 "ccblade_group.Tp" "N/m") as [n3 H3].
    apply (@make_plots_run E (main_problem E) x5 _ _ _
             (row0_2d _ H1) (row0_2d _ H2) (row0_2d _ H3));
      now apply plot_ok_rows with (m := m). }
  rewrite Hp in Hres. eexists. split; [exact Hres|].
  rewrite Htr. constructor. apply make_plots_plotting.
Qed.

(** C10. Run as a script, in a world where the plots can be made (every
    array read back has two axes, at least one node and the same number of
    radial stations, and the number of blades is below 2^63), the module
    calls [main] 21 times: the events are those of 21 complete runs followed
    by one printed line.  That line is ['average walltime = '], the mean,
    [' s, stddev = '], the standard deviation and [' s'], mean and standard
    deviation being [np.mean] and [np.std] of the 20 values returned by the
    runs after the first.  The value each run returns is the difference of
    the two clock readings that enclose its [run_driver] call: [setup] and
    [final_setup] come before the first reading and all plotting after the
    second. *)
Theorem script_times_twenty_of_twenty_one_runs (m : nat) (x : X E) :
  plots_available E m ->
  exists runs : list (list Event * float),
    length runs = 21 /\
    Forall (fun r => one_run (main_problem E) (fst r) (snd r)) runs /\
    length (map snd (tl runs)) = 20 /\
    result (script E x) = Some tt /\
    trace (script E x) =
      concat (map fst runs)
        ++ [Eprint
              ("average walltime = "
                 ++ format_float E (np_mean E (map snd (tl runs)))
                 ++ " s, stddev = "
                 ++ format_float E (np_std E (map snd (tl runs)))
                 ++ " s")%string] /\
    length (filter is_run_driver (trace (script E x))) = 21.
Proof.
  intros Hworld.
  destruct (main_one_run x Hworld) as (a0 & Ha0 & Hrun0).
  destruct (main E x) as [[r0 x1] l0] eqn:Hmain.
  unfold result, trace in Ha0, Hrun0. simpl in Ha0, Hrun0. subst r0.
  destruct (@repeatM_runs E float (main E) (one_run (main_problem E))
              (fun y => main_one_run y Hworld) 20 x1)
    as (runs & Hlen & Hall & Hres & Htr).
  destruct (repeatM 20 (main E) x1) as [[r x2] l] eqn:Hrep.
  unfold result, trace in Hres, Htr. simpl in Hres, Htr. subst r l.
  assert (Hscript :
    script E x =
      (Some tt,
       step E (Eprint (report E (np_mean E (map snd runs))
                         (np_std E (map snd runs)))) x2,
       l0 ++ concat (map fst runs)
         ++ [Eprint (report E (np_mean E (map snd runs))
                       (np_std E (map snd runs)))])).
  { unfold script. erewrite bind_Some by exact Hmain.
    erewrite bind_Some by exact Hrep. reflexivity. }
  exists ((l0, a0) :: runs). rewrite Hscript. unfold result, trace. simpl.
  repeat split.
  - now rewrite Hlen.
  - constructor; assumption.
  - now rewrite length_map.
  - now rewrite app_assoc.
  - clear Hscript Hrep Hmain.
    assert (Hcount : forall rs : list (list Event * float),
      Forall (fun r => one_run (main_problem E) (fst r) (snd r)) rs ->
      length (filter is_run_driver (concat (map fst rs))) = length rs).
    { induction 1 as [|[tr a] rs Hr _ IH]; [reflexivity|].
      simpl in Hr. destruct Hr as [t0 t1 plots Hplots].
      simpl map. rewrite concat_cons, filter_app, length_app, IH.
      simpl. rewrite (plotting_not_run_driver Hplots). reflexivity. }
    rewrite app_assoc, filter_app, length_app.
    change (l0 ++ concat (map fst runs))
      with (concat (map fst ((l0, a0) :: runs))).
    rewrite Hcount by (constructor; assumption).
    simpl. rewrite Hlen. reflexivity.
Qed.

End MainFacts.

(** ** The script in the counting world *)

Section CountingWorld.

#[local] Open Scope string_scope.
#[local] Open Scope list_scope.


Lemma script_times_twenty_of_twenty_one_runs_witness :
  plots_available counting_world 3 /\
  exists runs : list (list Event * float),
    length runs = 21 /\
    Forall (fun r => one_run (main_problem counting_world) (fst r) (snd r))
      runs /\
    length (map snd (tl runs)) = 20 /\
    result (script counting_world 0) = Some tt /\
    trace (script counting_world 0) =
      concat (map fst runs)
        ++ [Eprint
              ("average walltime = "
                 ++ format_float counting_world
                      (np_mean counting_world (map snd (tl runs)))
                 ++ " s, stddev = "
                 ++ format_float counting_world
                      (np_std counting_world (map snd (tl runs)))
                 ++ " s")%string] /\
    length (filter is_run_driver (trace (script counting_world 0))) = 21.
Proof.
  assert (H : plots_available counting_world 3).
  { split.
    - intros x name units. exists 0. reflexivity.
    - intros x. reflexivity. }
  split.
  - exact H.
  - apply (@script_times_twenty_of_twenty_one_runs counting_world 3 0%nat H).
Defined.

(** In the counting world every run returns 2, the 21 runs and the final
    line make 337 events, and the line printed is the report. *)
Example script_in_counting_world :
  result (main counting_world 0) = Some 2%float /\
  length (trace (script counting_world 0)) = 337 /\
  last (trace (script counting_world 0)) Esubplots =
    Eprint "average walltime = t s, stddev = t s".
Proof. vm_compute. repeat split. Qed.

(** In the uneven world the second plot raises: the run stops after the first
    file, with a figure left open, and the script stops in its first run. *)
Example script_in_uneven_world :
  result (make_plots uneven_world Problem_new 0) = None /\
  saved_files (trace (make_plots uneven_world Problem_new 0)) =
    ["pyccblade_normal_load.png"] /\
  figures_open (trace (make_plots uneven_world Problem_new 0)) 0 = 1 /\
  result (script uneven_world 0) = None /\
  length (filter is_run_driver (trace (script uneven_world 0))) = 1.
Proof. vm_compute. repeat split. Qed.

End CountingWorld.

(** * Further properties *)

(** ** When [ccblade_interp] returns and what it pairs up *)

Lemma pick_columns0 {A} (n : nat) :
  forall us vs : list A,
    length us = n -> length vs = n -> pick n 2 0 (columns us vs) = us.
Proof.
  induction n as [|n IH]; intros [|u us] [|v vs] Hu Hv;
    try discriminate; try reflexivity.
  simpl. f_equal. apply IH; simpl in *; lia.
Qed.

Lemma pick_columns1 {A} (n : nat) :
  forall us vs : list A,
    length us = n -> length vs = n -> pick n 2 1 (columns us vs) = vs.
Proof.
  induction n as [|n IH]; intros [|u us] [|v vs] Hu Hv;
    try discriminate; try reflexivity.
  simpl. f_equal. apply IH; simpl in *; lia.
Qed.

Lemma per_row_columns {A} (g h : A -> A -> A) :
  forall xs ys : list A,
    per_row g h (columns xs ys) = columns (map2 g xs ys) (map2 h xs ys).
Proof.
  induction xs as [|x xs IH]; intros [|y ys]; try reflexivity.
  simpl. now rewrite IH.
Qed.

Lemma map2_length {A} (g : A -> A -> A) :
  forall xs ys : list A,
    length xs = length ys -> length (map2 g xs ys) = length xs.
Proof.
  induction xs as [|x xs IH]; intros [|y ys] H; try discriminate;
    try reflexivity.
  simpl. f_equal. apply IH. simpl in H. lia.
Qed.

Section InterpMore.

Variable A : Type.
Variable interp : ndarray A -> ndarray A.
Variable strides_fit : ndarray A -> list nat -> bool.

(** Arrays with different numbers of entries cannot be stacked. *)
Lemma ccblade_interp_mismatch (alpha Re Mach : ndarray A) :
  size alpha <> size Re ->
  ccblade_interp interp strides_fit alpha Re Mach = None.
Proof.
  intros Hne. unfold ccblade_interp, flatten, newaxis1, concatenate_last.
  simpl. apply Nat.eqb_neq in Hne. now rewrite Hne.
Qed.

(** With as many entries in [Re] as in [alpha], everything hinges on the
    array the interpolant returns: its number of entries, and whether it can
    take the new shape in place. *)
Lemma ccblade_interp_eval (alpha Re Mach : ndarray A) :
  wf alpha -> wf Re -> size alpha = size Re ->
  ccblade_interp interp strides_fit alpha Re Mach =
  if (size alpha * 2 =? size (interp (stacked alpha Re)))
     && (always_in_place (shape (interp (stacked alpha Re)))
           (shape alpha ++ [2])
         || strides_fit (stacked alpha Re) (shape alpha ++ [2]))
  then Some
         (mk_ndarray (shape alpha)
            (pick (size alpha) 2 0 (data (interp (stacked alpha Re)))),
          mk_ndarray (shape alpha)
            (pick (size alpha) 2 1 (data (interp (stacked alpha Re)))))
  else None.
Proof.
  intros Ha Hr Hs. unfold wf in Ha, Hr.
  unfold ccblade_interp, flatten, newaxis1, concatenate_last. simpl.
  rewrite <- Hs, Nat.eqb_refl. simpl. rewrite Nat.mul_1_r.
  rewrite weave_columns by lia. fold (stacked alpha Re).
  unfold set_shape. rewrite prod_snoc.
  change (prod (shape alpha)) with (size alpha).
  destruct (size alpha * 2 =? size (interp (stacked alpha Re)));
    [|reflexivity].
  destruct (always_in_place (shape (interp (stacked alpha Re)))
              (shape alpha ++ [2])
            || strides_fit (stacked alpha Re) (shape alpha ++ [2]));
    [|reflexivity].
  simpl. unfold index_last. simpl. rewrite split_last_snoc. reflexivity.
Qed.

(** X1. [ccblade_interp] returns exactly when [Re] has as many entries as
    [alpha], the interpolant answers with two entries per row, and that
    answer can take the shape of [alpha] followed by 2 in place: because it
    has that shape already or has N rows of two entries, or else because its
    strides fit.  The shape of [Re] plays no other part, and both results
    take the shape of [alpha]. *)
Theorem ccblade_interp_returns_iff (alpha Re Mach : ndarray A) :
  wf alpha -> wf Re ->
  (ccblade_interp interp strides_fit alpha Re Mach <> None <->
   size alpha = size Re /\
   size (interp (stacked alpha Re)) = size alpha * 2 /\
   (always_in_place (shape (interp (stacked alpha Re))) (shape alpha ++ [2])
    || strides_fit (stacked alpha Re) (shape alpha ++ [2])) = true)
  /\ forall cl cd : ndarray A,
       ccblade_interp interp strides_fit alpha Re Mach = Some (cl, cd) ->
       shape cl = shape alpha /\ shape cd = shape alpha.
Proof.
  intros Ha Hr.
  destruct (Nat.eq_dec (size alpha) (size Re)) as [Hs|Hs].
  - rewrite (ccblade_interp_eval Mach Ha Hr Hs).
    destruct (Nat.eqb_spec (size alpha * 2) (size (interp (stacked alpha Re))))
      as [He|He].
    + destruct (always_in_place (shape (interp (stacked alpha Re)))
                  (shape alpha ++ [2])
                || strides_fit (stacked alpha Re) (shape alpha ++ [2])).
      * split.
        -- split; [intros _; repeat split; [exact Hs | now symmetry]
                  | discriminate].
        -- intros cl cd H. injection H as <- <-. split; reflexivity.
      * split.
        -- split; [intros H; now elim H | intros (_ & _ & H); discriminate H].
        -- discriminate.
    + split.
      * split; [intros H; now elim H
               | intros (_ & H & _); symmetry in H; now elim He].
      * discriminate.
  - rewrite ccblade_interp_mismatch by exact Hs. split.
    + split; [intros H; now elim H | intros [H _]; now elim Hs].
    + discriminate.
Qed.

End InterpMore.

Lemma ccblade_interp_returns_iff_witness :
  (wf alpha_2x2 /\ wf Re_flat4) /\
  ((ccblade_interp echo never_fit alpha_2x2 Re_flat4 Mach_0d <> None <->
    size alpha_2x2 = size Re_flat4 /\
    size (echo (stacked alpha_2x2 Re_flat4)) = size alpha_2x2 * 2 /\
    (always_in_place (shape (echo (stacked alpha_2x2 Re_flat4)))
       (shape alpha_2x2 ++ [2])
     || never_fit (stacked alpha_2x2 Re_flat4) (shape alpha_2x2 ++ [2]))
    = true)
   /\ forall cl cd : ndarray Z,
        ccblade_interp echo never_fit alpha_2x2 Re_flat4 Mach_0d
          = Some (cl, cd) ->
        shape cl = shape alpha_2x2 /\ shape cd = shape alpha_2x2).
Proof.
  split.
  - split; reflexivity.
  - apply (@ccblade_interp_returns_iff Z echo never_fit
             alpha_2x2 Re_flat4 Mach_0d);
      reflexivity.
Defined.

(** A one-axis [Re] is accepted next to a 2-by-2 [alpha]. *)
Example ccblade_interp_flat_Re :
  ccblade_interp echo never_fit alpha_2x2 Re_flat4 Mach_0d =
  Some (mk_ndarray [2; 2] [1; 2; 3; 4]%Z, mk_ndarray [2; 2] [5; 6; 7; 8]%Z).
Proof. reflexivity. Qed.

Section InterpRows.

Variable A : Type.
Variable strides_fit : ndarray A -> list nat -> bool.

(** X2. With an interpolant that works row by row, entry [i] of the two
    results is computed from entry [i] of [alpha] and entry [i] of [Re], and
    from nothing else. *)
Theorem ccblade_interp_rowwise (g h : A -> A -> A) (alpha Re Mach : ndarray A) :
  wf alpha -> wf Re -> size alpha = size Re ->
  ccblade_interp (rowwise g h) strides_fit alpha Re Mach =
  Some (mk_ndarray (shape alpha) (map2 g (data alpha) (data Re)),
        mk_ndarray (shape alpha) (map2 h (data alpha) (data Re))).
Proof.
  intros Ha Hr Hs. rewrite (ccblade_interp_eval _ _ Mach Ha Hr Hs).
  unfold wf in Ha, Hr.
  assert (Hl : length (data alpha) = length (data Re)) by lia.
  unfold rowwise at 1 2. unfold size at 2. simpl shape.
  replace (prod [size alpha; 2]) with (size alpha * 2) by (simpl; lia).
  change (size alpha) with (prod (shape alpha)) at 3.
  rewrite always_in_place_split, Nat.eqb_refl.
  unfold rowwise, stacked. simpl data.
  rewrite per_row_columns.
  rewrite pick_columns0, pick_columns1;
    rewrite ?map2_length by exact Hl; try assumption.
  reflexivity.
Qed.

(** X3. Stacking and taking the columns apart again loses nothing: with an
    interpolant that returns its input, [ccblade_interp] returns [alpha] and
    the entries of [Re], in the shape of [alpha]. *)
Theorem ccblade_interp_round_trip (alpha Re Mach : ndarray A) :
  wf alpha -> wf Re -> size alpha = size Re ->
  ccblade_interp (fun x => x) strides_fit alpha Re Mach =
  Some (alpha, mk_ndarray (shape alpha) (data Re)).
Proof.
  intros Ha Hr Hs. rewrite (ccblade_interp_eval _ _ Mach Ha Hr Hs).
  unfold wf in Ha, Hr.
  unfold stacked at 1 2. unfold size at 2. simpl shape.
  replace (prod [size alpha; 2]) with (size alpha * 2) by (simpl; lia).
  change (size alpha) with (prod (shape alpha)) at 3.
  rewrite always_in_place_split, Nat.eqb_refl.
  unfold stacked. simpl data.
  rewrite pick_columns0, pick_columns1 by lia.
  now destruct alpha.
Qed.

End InterpRows.

Lemma ccblade_interp_rowwise_witness :
  (wf alpha_2x2 /\ wf Re_flat4 /\ size alpha_2x2 = size Re_flat4) /\
  ccblade_interp (rowwise Z.add Z.mul) never_fit alpha_2x2 Re_flat4 Mach_0d =
  Some (mk_ndarray (shape alpha_2x2) (map2 Z.add (data alpha_2x2) (data Re_flat4)),
        mk_ndarray (shape alpha_2x2) (map2 Z.mul (data alpha_2x2) (data Re_flat4))).
Proof.
  split.
  - repeat split; reflexivity.
  - apply (@ccblade_interp_rowwise Z never_fit Z.add Z.mul
             alpha_2x2 Re_flat4 Mach_0d);
      reflexivity.
Defined.

Lemma ccblade_interp_round_trip_witness :
  (wf alpha_2x2 /\ wf Re_flat4 /\ size alpha_2x2 = size Re_flat4) /\
  ccblade_interp (fun x => x) never_fit alpha_2x2 Re_flat4 Mach_0d =
  Some (alpha_2x2, mk_ndarray (shape alpha_2x2) (data Re_flat4)).
Proof.
  split.
  - repeat split; reflexivity.
  - apply (@ccblade_interp_round_trip Z never_fit alpha_2x2 Re_flat4 Mach_0d);
      reflexivity.
Defined.

(** ** When the plots fail *)

Section BindFacts.

Variable E : Env.

Lemma result_bind {A B} (m : M E A) (f : A -> M E B) (x : X E) :
  result (bind m f x) =
  match result (m x) with
  | Some a => result (f a (world (m x)))
  | None => None
  end.
Proof.
  unfold bind, result, world.
  destruct (m x) as [[[a|] x1] l1]; simpl; [|reflexivity].
  now destruct (f a x1) as [[r x2] l2].
Qed.

Lemma trace_bind {A B} (m : M E A) (f : A -> M E B) (x : X E) :
  trace (bind m f x) =
  trace (m x) ++
  match result (m x) with
  | Some a => trace (f a (world (m x)))
  | None => []
  end.
Proof.
  unfold bind, result, world, trace.
  destruct (m x) as [[[a|] x1] l1]; simpl.
  - now destruct (f a x1) as [[r x2] l2].
  - now rewrite app_nil_r.
Qed.

Lemma trace_ret {A} (a : A) (x : X E) : trace (ret (E := E) a x) = [].
Proof. reflexivity. Qed.

Lemma result_ret {A} (a : A) (x : X E) : result (ret (E := E) a x) = Some a.
Proof. reflexivity. Qed.

Lemma trace_emit (e : Event) (x : X E) : trace (emit E e x) = [e].
Proof. reflexivity. Qed.

Lemma result_emit (e : Event) (x : X E) : result (emit E e x) = Some tt.
Proof. reflexivity. Qed.

End BindFacts.

Section PlotFailures.

Variable E : Env.

#[local] Open Scope string_scope.
#[local] Open Scope list_scope.

(** The six ways a call of [make_plots] can go: it raises at the first array
    without a row 0, having only read so far; it raises at the first plot
    that is not accepted, right after opening a figure; or it goes
    through. *)
Lemma make_plots_cases (prob : Problem) (x : X E) :
  let nb := num_blades_option E x in
  let G1 := Eget_val prob "radii" "m" in
  let G2 := Eget_val prob "ccblade_group.Np" "N/m" in
  let G3 := Eget_val prob "ccblade_group.Tp" "N/m" in
  let x1 := step E G1 x in
  let x2 := step E G2 x1 in
  let r1 := row 0 (get_val_result E x "radii" "m") in
  let r2 := row 0 (get_val_result E x1 "ccblade_group.Np" "N/m") in
  let r3 := row 0 (get_val_result E x2 "ccblade_group.Tp" "N/m") in
  (r1 = None /\
   result (make_plots E prob x) = None /\
   trace (make_plots E prob x) = [G1])
  \/
  (r1 <> None /\ r2 = None /\
   result (make_plots E prob x) = None /\
   trace (make_plots E prob x) = [G1; G2])
  \/
  (r1 <> None /\ r2 <> None /\ r3 = None /\
   result (make_plots E prob x) = None /\
   trace (make_plots E prob x) = [G1; G2; G3])
  \/
  (exists radii np tp : ndarray float,
     r1 = Some radii /\ r2 = Some np /\ r3 = Some tp /\
     plot_ok radii (mul_int np nb) = false /\
     result (make_plots E prob x) = None /\
     trace (make_plots E prob x) = [G1; G2; G3; Esubplots])
  \/
  (exists (radii np tp : ndarray float) (fig1 : Figure),
     r1 = Some radii /\ r2 = Some np /\ r3 = Some tp /\
     plot_ok radii (mul_int np nb) = true /\
     plot_ok radii (mul_int tp nb) = false /\
     result (make_plots E prob x) = None /\
     trace (make_plots E prob x) =
       [G1; G2; G3;
        Esubplots; Eprint "pyccblade_normal_load.png";
        Esavefig fig1 "pyccblade_normal_load.png"; Eclose fig1;
        Esubplots])
  \/
  (exists (radii np tp : ndarray float) (fig1 fig2 : Figure),
     r1 = Some radii /\ r2 = Some np /\ r3 = Some tp /\
     plot_ok radii (mul_int np nb) = true /\
     plot_ok radii (mul_int tp nb) = true /\
     result (make_plots E prob x) = Some tt /\
     trace (make_plots E prob x) =
       [G1; G2; G3;
        Esubplots; Eprint "pyccblade_normal_load.png";
        Esavefig fig1 "pyccblade_normal_load.png"; Eclose fig1;
        Esubplots; Eprint "pyccblade_circum_load.png";
        Esavefig fig2 "pyccblade_circum_load.png"; Eclose fig2]).
Proof.
  intros nb G1 G2 G3 x1 x2 r1 r2 r3.
  destruct r1 as [radii|] eqn:Hr; subst r1.
  - destruct r2 as [np|] eqn:Hn; subst r2.
    + destruct r3 as [tp|] eqn:Ht; subst r3.
      * destruct (plot_ok radii (mul_int np nb)) eqn:Hp1.
        -- destruct (plot_ok radii (mul_int tp nb)) eqn:Hp2.
           ++ do 5 right.
              destruct (@make_plots_run E prob x radii np tp Hr Hn Ht Hp1 Hp2)
                as [Hres Htr].
              exists radii, np, tp. do 2 eexists.
              repeat split; first [reflexivity | eassumption].
           ++ do 4 right. left. exists radii, np, tp. eexists.
              repeat (split; [first [reflexivity | assumption]|]).
              unfold make_plots, plt_subplots.
              cbv beta iota zeta delta
                [bind get_val ask lift emit ret result trace fst snd ax_plot].
              fold G1. fold x1. rewrite Hr. fold G2. fold x2. rewrite Hn, Ht.
              cbv beta iota. fold nb. rewrite Hp1. cbv beta iota. rewrite Hp2.
              split; reflexivity.
        -- do 3 right. left. exists radii, np, tp.
           repeat (split; [first [reflexivity | assumption]|]).
           unfold make_plots, plt_subplots.
           cbv beta iota zeta delta
             [bind get_val ask lift emit ret result trace fst snd ax_plot].
           fold G1. fold x1. rewrite Hr. fold G2. fold x2. rewrite Hn, Ht.
           cbv beta iota. fold nb. rewrite Hp1.
           split; reflexivity.
      * do 2 right. left.
        repeat (split; [discriminate|]). split; [reflexivity|].
        unfold make_plots, plt_subplots.
        cbv beta iota zeta delta
          [bind get_val ask lift emit ret result trace fst snd ax_plot].
        fold G1. fold x1. rewrite Hr. fold G2. fold x2. rewrite Hn, Ht.
        split; reflexivity.
    + right. left. split; [discriminate|]. split; [reflexivity|].
      unfold make_plots, plt_subplots.
      cbv beta iota zeta delta
        [bind get_val ask lift emit ret result trace fst snd ax_plot].
      fold G1. fold x1. rewrite Hr, Hn. split; reflexivity.
  - left. split; [reflexivity|].
    unfold make_plots, plt_subplots.
    cbv beta iota zeta delta
      [bind get_val ask lift emit ret result trace fst snd ax_plot].
    rewrite Hr. split; reflexivity.
Qed.

(** X4. Where [make_plots] raises and what it has written by then.  When it
    returns, the three arrays had a row 0, both plots were accepted and both
    files are saved.  When an array has no row 0 it raises having only read
    variables: no file is saved.  When the rows are there but the normal load
    cannot be plotted against the radii it raises before any file is saved;
    when only the circumferential load cannot, it raises after saving the
    first file alone. *)
Theorem make_plots_raises_where (prob : Problem) (x : X E) :
  let nb := num_blades_option E x in
  let x1 := step E (Eget_val prob "radii" "m") x in
  let x2 := step E (Eget_val prob "ccblade_group.Np" "N/m") x1 in
  let r1 := row 0 (get_val_result E x "radii" "m") in
  let r2 := row 0 (get_val_result E x1 "ccblade_group.Np" "N/m") in
  let r3 := row 0 (get_val_result E x2 "ccblade_group.Tp" "N/m") in
  (result (make_plots E prob x) = Some tt ->
   saved_files (trace (make_plots E prob x)) =
     ["pyccblade_normal_load.png"; "pyccblade_circum_load.png"] /\
   exists radii np tp : ndarray float,
     r1 = Some radii /\ r2 = Some np /\ r3 = Some tp /\
     plot_ok radii (mul_int np nb) = true /\
     plot_ok radii (mul_int tp nb) = true)
  /\ (r1 = None \/ r2 = None \/ r3 = None ->
      result (make_plots E prob x) = None /\
      Forall (fun e => is_get_val e = true) (trace (make_plots E prob x)) /\
      saved_files (trace (make_plots E prob x)) = [])
  /\ (forall radii np tp : ndarray float,
        r1 = Some radii -> r2 = Some np -> r3 = Some tp ->
        plot_ok radii (mul_int np nb) = false ->
        result (make_plots E prob x) = None /\
        saved_files (trace (make_plots E prob x)) = [])
  /\ (forall radii np tp : ndarray float,
        r1 = Some radii -> r2 = Some np -> r3 = Some tp ->
        plot_ok radii (mul_int np nb) = true ->
        plot_ok radii (mul_int tp nb) = false ->
        result (make_plots E prob x) = None /\
        saved_files (trace (make_plots E prob x)) =
          ["pyccblade_normal_load.png"]).
Proof.
  cbv zeta.
  destruct (make_plots_cases prob x)
    as [(Hr & Hres & Htr)
       |[(Hr & Hn & Hres & Htr)
        |[(Hr & Hn & Ht & Hres & Htr)
         |[(radii & np & tp & Hr & Hn & Ht & Hp1 & Hres & Htr)
          |[(radii & np & tp & fig1 & Hr & Hn & Ht & Hp1 & Hp2 & Hres & Htr)
           |(radii & np & tp & fig1 & fig2
             & Hr & Hn & Ht & Hp1 & Hp2 & Hres & Htr)]]]]];
    rewrite Hres, Htr.
  - split; [discriminate|]. split; [|split; intros; congruence].
    intros _. repeat split; repeat constructor.
  - split; [discriminate|]. split; [|split; intros; congruence].
    intros _. repeat split; repeat constructor.
  - split; [discriminate|]. split; [|split; intros; congruence].
    intros _. repeat split; repeat constructor.
  - split; [discriminate|].
    split; [intros [H|[H|H]]; congruence|].
    split; [intros; split; reflexivity | intros; congruence].
  - split; [discriminate|].
    split; [intros [H|[H|H]]; congruence|].
    split; [intros; congruence | intros; split; reflexivity].
  - split.
    + intros _. split; [reflexivity|]. exists radii, np, tp. auto.
    + split; [intros [H|[H|H]]; congruence|].
      split; intros; congruence.
Qed.

(** X5. Figures opened by [make_plots]: never more than one is open at a
    time.  None is left open when it returns, nor when it raises for want of
    a row 0; but a plot that raises leaves its figure open, since nothing
    closes it on the way out. *)
Theorem make_plots_figures (prob : Problem) (x : X E) :
  let nb := num_blades_option E x in
  let x1 := step E (Eget_val prob "radii" "m") x in
  let x2 := step E (Eget_val prob "ccblade_group.Np" "N/m") x1 in
  let r1 := row 0 (get_val_result E x "radii" "m") in
  let r2 := row 0 (get_val_result E x1 "ccblade_group.Np" "N/m") in
  let r3 := row 0 (get_val_result E x2 "ccblade_group.Tp" "N/m") in
  peak_open (trace (make_plots E prob x)) 0 <= 1
  /\ (result (make_plots E prob x) = Some tt ->
      figures_open (trace (make_plots E prob x)) 0 = 0)
  /\ (r1 = None \/ r2 = None \/ r3 = None ->
      figures_open (trace (make_plots E prob x)) 0 = 0)
  /\ (forall radii np tp : ndarray float,
        r1 = Some radii -> r2 = Some np -> r3 = Some tp ->
        plot_ok radii (mul_int np nb) = false \/
        plot_ok radii (mul_int tp nb) = false ->
        figures_open (trace (make_plots E prob x)) 0 = 1).
Proof.
  cbv zeta.
  destruct (make_plots_cases prob x)
    as [(Hr & Hres & Htr)
       |[(Hr & Hn & Hres & Htr)
        |[(Hr & Hn & Ht & Hres & Htr)
         |[(radii & np & tp & Hr & Hn & Ht & Hp1 & Hres & Htr)
          |[(radii & np & tp & fig1 & Hr & Hn & Ht & Hp1 & Hp2 & Hres & Htr)
           |(radii & np & tp & fig1 & fig2
             & Hr & Hn & Ht & Hp1 & Hp2 & Hres & Htr)]]]]];
    rewrite Hres, Htr.
  - split; [simpl; lia|]. split; [discriminate|].
    split; [reflexivity | intros; congruence].
  - split; [simpl; lia|]. split; [discriminate|].
    split; [reflexivity | intros; congruence].
  - split; [simpl; lia|]. split; [discriminate|].
    split; [reflexivity | intros; congruence].
  - split; [simpl; lia|]. split; [discriminate|].
    split; [intros [H|[H|H]]; congruence | reflexivity].
  - split; [simpl; lia|]. split; [discriminate|].
    split; [intros [H|[H|H]]; congruence | reflexivity].
  - split; [simpl; lia|]. split; [reflexivity|].
    split; [intros [H|[H|H]]; congruence|].
    intros radii' np' tp' H1 H2 H3 [H|H]; congruence.
Qed.

End PlotFailures.

(** ** What the figures show *)

Section PlotContents.

Variable E : Env.

#[local] Open Scope string_scope.
#[local] Open Scope list_scope.

(** X6. When the three arrays read back are well-formed two-axis arrays with
    at least one node and [m] radial stations, and the number of blades is a
    Python int below 2^63 in magnitude, the two figures saved each hold one
    line of [m] points: the first [m] entries of [radii] (node 0) against the
    first [m] entries of [Np], respectively [Tp], each multiplied by the
    number of blades.  Entries of other nodes are never plotted. *)
Theorem make_plots_plots_node_0 (prob : Problem) (x : X E)
  (nr nn nt m : nat) :
  let nb := num_blades_option E x in
  let x1 := step E (Eget_val prob "radii" "m") x in
  let x2 := step E (Eget_val prob "ccblade_group.Np" "N/m") x1 in
  let radii := get_val_result E x "radii" "m" in
  let Np := get_val_result E x1 "ccblade_group.Np" "N/m" in
  let Tp := get_val_result E x2 "ccblade_group.Tp" "N/m" in
  wf radii -> wf Np -> wf Tp ->
  shape radii = [S nr; m] -> shape Np = [S nn; m] -> shape Tp = [S nt; m] ->
  small_int nb ->
  saved_figures (trace (make_plots E prob x)) =
    [ mk_figure
        [mk_line (mk_ndarray [m] (firstn m (data radii)))
           (mk_ndarray [m]
              (map (fun v => v * float_of_int nb)%float (firstn m (data Np))))
           "CCBlade.jl"]
        (Some "blade element radius, m") (Some "normal load, N/m") true;
      mk_figure
        [mk_line (mk_ndarray [m] (firstn m (data radii)))
           (mk_ndarray [m]
              (map (fun v => v * float_of_int nb)%float (firstn m (data Tp))))
           "CCBlade.jl"]
        (Some "blade element radius, m") (Some "circumferential load, N/m")
        true ]
  /\ length (firstn m (data radii)) = m
  /\ length (map (fun v => v * float_of_int nb)%float (firstn m (data Np))) = m
  /\ length (map (fun v => v * float_of_int nb)%float (firstn m (data Tp))) = m.
Proof.
  intros nb x1 x2 radii Np Tp Wr Wn Wt Sr Sn St _.
  assert (Hp1 : plot_ok (mk_ndarray [m] (firstn m (data radii)))
                  (mul_int (mk_ndarray [m] (firstn m (data Np))) nb) = true)
    by (now apply plot_ok_rows with (m := m)).
  assert (Hp2 : plot_ok (mk_ndarray [m] (firstn m (data radii)))
                  (mul_int (mk_ndarray [m] (firstn m (data Tp))) nb) = true)
    by (now apply plot_ok_rows with (m := m)).
  destruct (@make_plots_run E prob x _ _ _
              (row0_2d radii Sr) (row0_2d Np Sn) (row0_2d Tp St) Hp1 Hp2)
    as [_ Htr].
  rewrite Htr. split; [reflexivity|].
  rewrite !length_map.
  repeat split; eapply row0_2d_length; eassumption.
Qed.

End PlotContents.

Lemma make_plots_plots_node_0_witness :
  (wf (get_val_result counting_world 0 "radii" "m") /\
   wf (get_val_result counting_world 1 "ccblade_group.Np" "N/m") /\
   wf (get_val_result counting_world 2 "ccblade_group.Tp" "N/m") /\
   shape (get_val_result counting_world 0 "radii" "m") = [1; 3] /\
   shape (get_val_result counting_world 1 "ccblade_group.Np" "N/m") = [1; 3] /\
   shape (get_val_result counting_world 2 "ccblade_group.Tp" "N/m") = [1; 3] /\
   small_int (num_blades_option counting_world 0))
  /\
  saved_figures (trace (make_plots counting_world Problem_new 0)) =
    [ mk_figure
        [mk_line (mk_ndarray [3] [1; 2; 0]%float)
           (mk_ndarray [3] [3; 6; 3]%float) "CCBlade.jl"]
        (Some "blade element radius, m"%string) (Some "normal load, N/m"%string)
        true;
      mk_figure
        [mk_line (mk_ndarray [3] [1; 2; 0]%float)
           (mk_ndarray [3] [3; 6; 6]%float) "CCBlade.jl"]
        (Some "blade element radius, m"%string)
        (Some "circumferential load, N/m"%string) true ]
  /\ length [1; 2; 0]%float = 3
  /\ length [3; 6; 3]%float = 3
  /\ length [3; 6; 6]%float = 3.
Proof.
  split.
  - repeat split; reflexivity.
  - apply (@make_plots_plots_node_0 counting_world Problem_new 0%nat 0 0 0 3);
      reflexivity.
Defined.

(** ** Failures in [main] and in the script *)

Section Failures.

Variable E : Env.

#[local] Open Scope string_scope.
#[local] Open Scope list_scope.

Lemma make_plots_returns_saves_both (prob : Problem) (x : X E) :
  result (make_plots E prob x) = Some tt ->
  saved_files (trace (make_plots E prob x)) =
    ["pyccblade_normal_load.png"; "pyccblade_circum_load.png"].
Proof.
  destruct (make_plots_cases E prob x)
    as [(Hr & Hres & Htr)
       |[(Hr & Hn & Hres & Htr)
        |[(Hr & Hn & Ht & Hres & Htr)
         |[(radii & np & tp & Hr & Hn & Ht & Hp1 & Hres & Htr)
          |[(radii & np & tp & fig1 & Hr & Hn & Ht & Hp1 & Hp2 & Hres & Htr)
           |(radii & np & tp & fig1 & fig2
             & Hr & Hn & Ht & Hp1 & Hp2 & Hres & Htr)]]]]];
    rewrite Hres, Htr; (reflexivity || discriminate).
Qed.

Lemma make_plots_no_report (prob : Problem) (x : X E) :
  filter is_report_line (trace (make_plots E prob x)) = [].
Proof.
  destruct (make_plots_cases E prob x)
    as [(Hr & Hres & Htr)
       |[(Hr & Hn & Hres & Htr)
        |[(Hr & Hn & Ht & Hres & Htr)
         |[(radii & np & tp & Hr & Hn & Ht & Hp1 & Hres & Htr)
          |[(radii & np & tp & fig1 & Hr & Hn & Ht & Hp1 & Hp2 & Hres & Htr)
           |(radii & np & tp & fig1 & fig2
             & Hr & Hn & Ht & Hp1 & Hp2 & Hres & Htr)]]]]];
    rewrite Htr; reflexivity.
Qed.

Lemma main_runs_driver_once (x : X E) :
  length (filter is_run_driver (trace (main E x))) = 1.
Proof.
  destruct (main_unfold E x) as [Htr _]. rewrite Htr, filter_app.
  now rewrite (plotting_not_run_driver (@make_plots_plotting E _ _)).
Qed.

Lemma main_no_report (x : X E) :
  length (filter is_report_line (trace (main E x))) = 0.
Proof.
  destruct (main_unfold E x) as [Htr _]. rewrite Htr, filter_app.
  now rewrite make_plots_no_report.
Qed.

Lemma report_is_report_line (mean std : float) :
  filter is_report_line [Eprint (report E mean std)] =
  [Eprint (report E mean std)].
Proof. reflexivity. Qed.

(** X7. A failure of the plots is a failure of [main]: [main] returns a time
    exactly when [make_plots] returns.  When it raises, the optimiser has
    already been run and timed, but no elapsed time comes back.  When it
    returns, the value is the second clock reading minus the first and both
    files have been saved. *)
Theorem main_raises_with_the_plots (x : X E) :
  let P := main_problem E in
  let x2 := step E (Efinal_setup P) (step E (Esetup P) x) in
  let t0 := now E x2 in
  let x4 := step E (Erun_driver P) (step E (Etime t0) x2) in
  let t1 := now E x4 in
  let x5 := step E (Etime t1) x4 in
  (result (main E x) = None <-> result (make_plots E P x5) = None)
  /\ (result (main E x) = None ->
      firstn 5 (trace (main E x)) =
        [Esetup P; Efinal_setup P; Etime t0; Erun_driver P; Etime t1] /\
      filter is_run_driver (trace (main E x)) = [Erun_driver P])
  /\ (forall t : float, result (main E x) = Some t ->
      t = (t1 - t0)%float /\
      saved_files (trace (main E x)) =
        ["pyccblade_normal_load.png"; "pyccblade_circum_load.png"]).
Proof.
  intros P x2 t0 x4 t1 x5.
  destruct (main_unfold E x) as [Htr Hres].
  fold P x2 t0 x4 t1 x5 in Htr, Hres.
  assert (Hiff : result (main E x) = None <-> result (make_plots E P x5) = None).
  { rewrite Hres. destruct (result (make_plots E P x5)); split;
      (reflexivity || discriminate). }
  split; [exact Hiff|]. split.
  - intros _. rewrite Htr. split; [reflexivity|].
    rewrite filter_app.
    now rewrite (plotting_not_run_driver (@make_plots_plotting E _ _)).
  - intros t Ht. rewrite Hres in Ht.
    destruct (result (make_plots E P x5)) as [[]|] eqn:Hp; [|discriminate].
    injection Ht as <-. split; [reflexivity|].
    rewrite Htr. simpl. now apply make_plots_returns_saves_both.
Qed.

(** Running [c] [n] times in a row, when each run of [c] causes [k] events
    of some kind: at most [n * k] of them are caused, exactly [n * k] when all
    runs return, and then [n] results are collected. *)
Lemma repeatM_count {A} (c : M E A) (q : Event -> bool) (k : nat) :
  (forall x, length (filter q (trace (c x))) = k) ->
  forall n x,
    length (filter q (trace (repeatM n c x))) <= n * k /\
    forall l, result (repeatM n c x) = Some l ->
      length (filter q (trace (repeatM n c x))) = n * k /\ length l = n.
Proof.
  intros Hc. induction n as [|n IH]; intros x.
  - split; [apply Nat.le_0_l|].
    intros l H. injection H as <-. split; reflexivity.
  - simpl repeatM. rewrite trace_bind, result_bind.
    rewrite filter_app, length_app, Hc.
    destruct (result (c x)) as [a|]; [|split; [simpl; lia | discriminate]].
    rewrite trace_bind, result_bind, filter_app, length_app.
    destruct (IH (world (c x))) as [Hle Heq].
    destruct (result (repeatM n c (world (c x)))) as [l|].
    + destruct (Heq l eq_refl) as [Hcount Hlen].
      rewrite trace_ret, result_ret, Hcount. split; [simpl; lia|].
      intros l' H. injection H as <-. simpl. split; lia.
    + split; [simpl; lia | discriminate].
Qed.

(** X8. The script stops at the first run that raises.  It never runs the
    optimiser more than 21 times; it returns only after 21 runs, the report
    being then its only such line; when it raises no report is printed; and
    when the first run raises nothing else happens. *)
Theorem script_stops_at_first_failure (x : X E) :
  length (filter is_run_driver (trace (script E x))) <= 21
  /\ (result (script E x) = Some tt ->
      length (filter is_run_driver (trace (script E x))) = 21 /\
      length (filter is_report_line (trace (script E x))) = 1)
  /\ (result (script E x) = None ->
      filter is_report_line (trace (script E x)) = [])
  /\ (result (main E x) = None ->
      result (script E x) = None /\ trace (script E x) = trace (main E x)).
Proof.
  unfold script. rewrite trace_bind, result_bind.
  rewrite !filter_app, !length_app.
  pose proof (main_runs_driver_once x) as Hrun.
  pose proof (main_no_report x) as Hrep.
  apply length_zero_iff_nil in Hrep.
  destruct (result (main E x)) as [a|].
  - rewrite trace_bind, result_bind, !filter_app, !length_app.
    destruct (repeatM_count (main E) is_run_driver main_runs_driver_once
                20 (world (main E x))) as [Hle Heq].
    destruct (repeatM_count (main E) is_report_line main_no_report
                20 (world (main E x))) as [Hle' _].
    assert (Hrep' :
      filter is_report_line (trace (repeatM 20 (main E) (world (main E x)))) = []).
    { apply length_zero_iff_nil. lia. }
    rewrite Hrun, Hrep, Hrep'.
    destruct (result (repeatM 20 (main E) (world (main E x)))) as [times|].
    + destruct (Heq times eq_refl) as [Hcount _].
      rewrite Hcount, trace_emit, result_emit, report_is_report_line.
      split; [simpl; lia|].
      split; [intros _; split; [simpl; lia | reflexivity]|].
      split; discriminate.
    + rewrite !app_nil_r.
      split; [simpl length in *; lia|].
      split; [discriminate|].
      split; [reflexivity | discriminate].
  - rewrite Hrun, Hrep, !app_nil_r.
    split; [simpl; lia|].
    split; [discriminate|].
    split; [reflexivity|].
    intros _. split; reflexivity.
Qed.

End Failures.

(** ** Names in the assembled problem *)

Lemma mem_In (s : string) (l : list string) : mem s l = true <-> In s l.
Proof.
  unfold mem. rewrite existsb_exists. split.
  - intros (y & Hy & Heq). apply String.eqb_eq in Heq. now subst.
  - intros H. exists s. split; [exact H | apply String.eqb_refl].
Qed.

Lemma distinct_NoDup (l : list string) : distinct l = true -> NoDup l.
Proof.
  induction l as [|n l IH]; intros H; [constructor|].
  simpl in H. apply andb_prop in H. destruct H as [Hn Hl].
  constructor; [|now apply IH].
  intros Hin. apply mem_In in Hin. rewrite Hin in Hn. discriminate.
Qed.

Lemma forallb_mem_incl (l k : list string) :
  forallb (fun n => mem n k) l = true -> incl l k.
Proof.
  intros H n Hn. rewrite forallb_forall in H. apply mem_In. now apply H.
Qed.

Section NameFacts.

Variable E : Env.

#[local] Open Scope string_scope.
#[local] Open Scope list_scope.

(** X9. The names used by the optimisation problem all exist, and exist once:
    no two subsystems share a name, no name is provided as an output by two
    subsystems, every design variable is an output declared on the
    [IndepVarComp], and the objective and the constraint are outputs that
    [ccblade_group] promotes. *)
Theorem main_problem_names_resolve :
  NoDup (map sub_name (subsystems (model (main_problem E))))
  /\ NoDup (model_outputs (main_problem E))
  /\ incl (map dv_name (design_vars (model (main_problem E))))
       (map out_name (declared_outputs (main_problem E)))
  /\ exists ccblade : Subsystem,
       find_subsystem "ccblade_group" (main_problem E) = Some ccblade /\
       incl (map obj_name (objectives (model (main_problem E)))
               ++ map con_name (constraints (model (main_problem E))))
         (opt_list (promotes_outputs ccblade)).
Proof.
  split; [apply distinct_NoDup; reflexivity|].
  split; [apply distinct_NoDup; reflexivity|].
  split; [apply forallb_mem_incl; reflexivity|].
  eexists. split; [reflexivity|]. apply forallb_mem_incl. reflexivity.
Qed.

(** X10. Three names are provided and used by nothing: the outputs ['alpha']
    and ['incidence'] declared on the [IndepVarComp] and the output
    ['torque'] of [ccblade_group] are neither a promoted input of a
    subsystem nor a design variable, the objective or the constraint; every
    other output is.  The discrete input ['B'] is promoted by
    [indep_var_comp] itself (through ['*']) and by no other subsystem, and no
    subsystem provides an output of that name. *)
Theorem main_problem_unused_names :
  filter (fun n => negb (mem n (consumed (main_problem E)
                                  ++ optimised (main_problem E))))
    (model_outputs (main_problem E))
  = ["alpha"; "incidence"; "torque"]
  /\ consumers "B" (main_problem E) = ["indep_var_comp"]
  /\ mem "B" (model_outputs (main_problem E)) = false.
Proof. repeat split. Qed.

End NameFacts.
